(** * Multimodal emotion fusion and the mood mapper

    A shallow embedding of [multimodal_fusion.py] (class
    [MultimodalFusion]) and of [gemini_chat.py], with the properties the
    specification states about them.

    Modelling conventions.
    - Python [str] is [string]; the methods [lower], [strip] and [title] are
      written out for ASCII text (code points from 128 on are left alone:
      they are neither cased nor white space here).
    - Python numbers ([int] and [float]) are exact rationals [Q]; the
      rounding error of binary64 arithmetic is outside the model, and
      equality of numbers is [Qeq] ([==]).
    - A Python [dict] with string keys is an association list in insertion
      order, since the code iterates dictionaries and takes the first hit.
    - An exception is the [Raise] branch of the [outcome] monad; [try/except
      Exception] is a match on it.
    - The iteration order of a Python [set] is not determined by the
      language: it is a parameter [set_order], only known to enumerate the
      distinct elements.

    The development also embeds [_extract_video_id] of
    [youtube_processor.py], with its regular expressions written out as
    searches for a literal text followed by eleven identifier characters,
    and [analyze_sentiment] of [text_sentiment_analyzer.py], with the model
    call, [json.loads], [float] on strings and the text of an exception as
    parameters. *)

From Stdlib Require Import String Ascii List Bool Arith ZArith QArith Qround Qabs.
From Stdlib Require Import Permutation Lia Lqa.
Import ListNotations.

Local Open Scope string_scope.

(** ** Python strings *)

Module PyStr.

Definition is_upper (c : ascii) : bool :=
  let n := nat_of_ascii c in (65 <=? n)%nat && (n <=? 90)%nat.

Definition is_lower (c : ascii) : bool :=
  let n := nat_of_ascii c in (97 <=? n)%nat && (n <=? 122)%nat.

(** [str.isspace] on one ASCII character: tab, line feed, vertical tab, form
    feed, carriage return, the four separators 28..31 and the space. *)
Definition is_space (c : ascii) : bool :=
  let n := nat_of_ascii c in
  ((9 <=? n)%nat && (n <=? 13)%nat) || ((28 <=? n)%nat && (n <=? 32)%nat).

Definition to_lower (c : ascii) : ascii :=
  if is_upper c then ascii_of_nat (nat_of_ascii c + 32) else c.

Definition to_upper (c : ascii) : ascii :=
  if is_lower c then ascii_of_nat (nat_of_ascii c - 32) else c.

(** [s.lower()] *)
Fixpoint lower (s : string) : string :=
  match s with
  | EmptyString => EmptyString
  | String c r => String (to_lower c) (lower r)
  end.

(** [s.lstrip()] *)
Fixpoint lstrip (s : string) : string :=
  match s with
  | EmptyString => EmptyString
  | String c r => if is_space c then lstrip r else s
  end.

(** [s.rstrip()]: a character is dropped when it is white space and
    everything after it has been dropped. *)
Fixpoint rstrip (s : string) : string :=
  match s with
  | EmptyString => EmptyString
  | String c r =>
      match rstrip r with
      | EmptyString => if is_space c then EmptyString else String c EmptyString
      | r' => String c r'
      end
  end.

(** [s.strip()] *)
Definition strip (s : string) : string := rstrip (lstrip s).

(** [s.title()]: a cased character is upper-cased when the character before
    it is not cased and lower-cased when it is. *)
Fixpoint title_from (previous_is_cased : bool) (s : string) : string :=
  match s with
  | EmptyString => EmptyString
  | String c r =>
      if is_upper c || is_lower c
      then String (if previous_is_cased then to_lower c else to_upper c)
                  (title_from true r)
      else String c (title_from false r)
  end.

Definition title (s : string) : string := title_from false s.

(** [sub in s] for two strings. *)
Fixpoint contains (sub s : string) : bool :=
  prefix sub s ||
  match s with
  | EmptyString => false
  | String _ r => contains sub r
  end.

End PyStr.

(** ** Python values, exceptions and dictionaries *)

Module Py.

Inductive exn : Type :=
| AttributeError
| TypeError
| KeyError
| ValueError
| IndexError.

Inductive outcome (A : Type) : Type :=
| Ok (a : A)
| Raise (e : exn).

Arguments Ok {A} a.
Arguments Raise {A} e.

Definition bind {A B : Type} (m : outcome A) (k : A -> outcome B) : outcome B :=
  match m with
  | Ok a => k a
  | Raise e => Raise e
  end.

Definition is_ok {A : Type} (m : outcome A) : bool :=
  match m with Ok _ => true | Raise _ => false end.

(** The values that reach the fusion engine: [None], strings, numbers and
    dictionaries with string keys. *)
#[warnings="-register-all"]
Inductive value : Type :=
| VNone
| VStr (s : string)
| VNum (q : Q)
| VDict (d : list (string * value)).

Definition dict : Type := list (string * value).

(** First binding of a key in an association list. *)
Fixpoint assoc {V : Type} (k : string) (d : list (string * V)) : option V :=
  match d with
  | [] => None
  | (k', v) :: r => if String.eqb k k' then Some v else assoc k r
  end.

(** [d.get(k, default)] *)
Definition get {V : Type} (d : list (string * V)) (k : string) (default : V) : V :=
  match assoc k d with
  | Some v => v
  | None => default
  end.

(** [k in d] for a dictionary. *)
Definition mem {V : Type} (k : string) (d : list (string * V)) : bool :=
  match assoc k d with
  | Some _ => true
  | None => false
  end.

(** [d[k]] *)
Definition getitem {V : Type} (d : list (string * V)) (k : string) : outcome V :=
  match assoc k d with
  | Some v => Ok v
  | None => Raise KeyError
  end.

Definition keys {V : Type} (d : list (string * V)) : list string := map fst d.
Definition values {V : Type} (d : list (string * V)) : list V := map snd d.

(** A value used as an operand of float arithmetic or of [> 0]. *)
Definition as_number (v : value) : outcome Q :=
  match v with
  | VNum q => Ok q
  | _ => Raise TypeError
  end.

End Py.

Export Py.

Declare Scope py_scope.
Delimit Scope py_scope with py.
Notation "x <- m ;; k" := (bind m (fun x => k))
  (at level 61, m at next level, right associativity) : py_scope.
Local Open Scope py_scope.

(** ** Numbers *)

(** [x < y] as a test. *)
Definition Qltb (x y : Q) : bool :=
  match (x ?= y)%Q with
  | Lt => true
  | _ => false
  end.

(** [round(x)] to an integer, ties to the even neighbour. *)
Definition round_half_even (x : Q) : Z :=
  let f := Qfloor x in
  match (x - inject_Z f ?= 1 # 2)%Q with
  | Lt => f
  | Gt => (f + 1)%Z
  | Eq => if Z.even f then f else (f + 1)%Z
  end.

(** [round(x, 2)] *)
Definition round2 (x : Q) : Q := (inject_Z (round_half_even (x * 100)) / 100)%Q.

(** [sum(xs)] *)
Definition sum (xs : list Q) : Q := fold_left Qplus xs 0%Q.

(** ** [multimodal_fusion.py] *)

Module MultimodalFusion.

(** Emotion mapping between the modalities' vocabularies. *)
Definition EMOTION_MAPPING : list (string * string) :=
  [ ("Angry", "angry");
    ("angry", "angry");
    ("Disgust", "disgust");
    ("disgust", "disgust");
    ("disgusted", "disgust");
    ("Fear", "fear");
    ("fear", "fear");
    ("fearful", "fear");
    ("Happy", "happy");
    ("happy", "happy");
    ("Neutral", "neutral");
    ("neutral", "neutral");
    ("Sad", "sad");
    ("sad", "sad");
    ("Surprise", "surprise");
    ("surprise", "surprise");
    ("surprised", "surprise");
    ("calm", "calm") ].

(** [normalize_emotion] on a string: the exact spelling is looked up first,
    then the lower-cased and stripped one, which is also the last resort. *)
Definition normalize (emotion : string) : string :=
  let emotion_lower := PyStr.strip (PyStr.lower emotion) in
  get EMOTION_MAPPING emotion (get EMOTION_MAPPING emotion_lower emotion_lower).

(** [normalize_emotion(emotion)]: [emotion.lower()] exists on strings only. *)
Definition normalize_emotion (emotion : value) : outcome string :=
  match emotion with
  | VStr s => Ok (normalize s)
  | _ => Raise AttributeError
  end.

(** [_get_confidence(result, emotion)]. The test [emotion in
    confidence_scores] is key membership on a dictionary and substring search
    on a string (which [confidence_scores[emotion]] then cannot index);
    [None] and numbers are not containers. *)
Definition _get_confidence (result : dict) (emotion : string) : outcome Q :=
  let confidence_scores := get result "confidence_scores" (VDict []) in
  match confidence_scores with
  | VDict d =>
      if mem emotion d
      then v <- getitem d emotion ;;
           x <- as_number v ;;
           Ok (x / 100)%Q
      else Ok (1 # 2)
  | VStr s =>
      if PyStr.contains emotion s then Raise TypeError else Ok (1 # 2)
  | VNone | VNum _ => Raise TypeError
  end.

(** The loop of [_get_video_confidence] over [emotion_dist.items()]. The
    condition [total > 0] is evaluated before the division. *)
Fixpoint video_items (items : dict) (total : value) (emotion : string)
  : outcome Q :=
  match items with
  | [] => Ok (1 # 2)
  | (key, value) :: rest =>
      if String.eqb (normalize key) emotion
      then t <- as_number total ;;
           if Qltb 0 t
           then v <- as_number value ;; Ok (v / t)%Q
           else Ok 0%Q
      else video_items rest total emotion
  end.

(** [_get_video_confidence(result, emotion)] *)
Definition _get_video_confidence (result : dict) (emotion : string)
  : outcome Q :=
  let emotion_dist := get result "emotion_distribution" (VDict []) in
  let total := get result "total_frames_processed" (VNum 1) in
  match emotion_dist with
  | VDict d => video_items d total emotion
  | _ => Raise AttributeError
  end.

Record ModalityEntry : Type := {
  emotion : string;
  modality_confidence : Q
}.

Record ModalityResults : Type := {
  text : ModalityEntry;
  video : ModalityEntry;
  audio : ModalityEntry
}.

(** The dictionary [fuse_results] returns. *)
Record FusedResult : Type := {
  dominant_emotion : string;
  confidence : Q;
  emotion_scores : list (string * Q);
  modality_results : ModalityResults
}.

Definition default_weights : dict :=
  [ ("text", VNum (3 # 10)); ("video", VNum (4 # 10)); ("audio", VNum (3 # 10)) ].

(** [confidence * weights[m]] *)
Definition weighted (confidence : Q) (weights : dict) (m : string) : outcome Q :=
  w <- getitem weights m ;;
  x <- as_number w ;;
  Ok (confidence * x)%Q.

(** The body of the voting loop for one [emotion]. *)
Definition vote (weights : dict)
    (text_emotion : string) (text_confidence : Q)
    (video_emotion : string) (video_confidence : Q)
    (audio_emotion : string) (audio_confidence : Q)
    (emotion : string) : outcome Q :=
  let score := 0%Q in
  score <- (if String.eqb emotion text_emotion
            then x <- weighted text_confidence weights "text" ;; Ok (score + x)%Q
            else Ok score) ;;
  score <- (if String.eqb emotion video_emotion
            then x <- weighted video_confidence weights "video" ;; Ok (score + x)%Q
            else Ok score) ;;
  score <- (if String.eqb emotion audio_emotion
            then x <- weighted audio_confidence weights "audio" ;; Ok (score + x)%Q
            else Ok score) ;;
  Ok score.

(** [for emotion in all_emotions: ... emotion_scores[emotion] = score]; the
    emotions come out of a set, so every assignment adds a new key. *)
Fixpoint weighted_voting (score_of : string -> outcome Q)
    (all_emotions : list string) : outcome (list (string * Q)) :=
  match all_emotions with
  | [] => Ok []
  | emotion :: rest =>
      score <- score_of emotion ;;
      emotion_scores <- weighted_voting score_of rest ;;
      Ok ((emotion, score) :: emotion_scores)
  end.

(** [max(d, key=d.get)] keeps the first key whose value no later value
    exceeds; a key of [d] is compared by the value stored with it. *)
Fixpoint max_from {V : Type} (ltb : V -> V -> bool) (best : string * V)
    (items : list (string * V)) : string :=
  match items with
  | [] => fst best
  | item :: rest =>
      if ltb (snd best) (snd item)
      then max_from ltb item rest
      else max_from ltb best rest
  end.

Definition max_key {V : Type} (ltb : V -> V -> bool) (d : list (string * V))
  : outcome string :=
  match d with
  | [] => Raise ValueError
  | item :: rest => Ok (max_from ltb item rest)
  end.

(** [{k: (v / total_score) * 100 for k, v in emotion_scores.items()}] *)
Definition percentages (total_score : Q) (emotion_scores : list (string * Q))
  : list (string * Q) :=
  map (fun kv => (fst kv, (snd kv / total_score) * 100)%Q) emotion_scores.

(** [Counter(emotions)]: the counts, keyed in order of first occurrence. *)
Fixpoint count_up (counts : list (string * nat)) (x : string)
  : list (string * nat) :=
  match counts with
  | [] => [(x, 1%nat)]
  | (k, n) :: rest =>
      if String.eqb k x then (k, S n) :: rest else (k, n) :: count_up rest x
  end.

Definition Counter (xs : list string) : list (string * nat) :=
  fold_left count_up xs [].

(** [c.most_common(1)[0][0]]: for one element [most_common] is [max] over
    the items by count, and indexing an empty answer fails. *)
Definition most_common_1 (c : list (string * nat)) : outcome string :=
  match c with
  | [] => Raise IndexError
  | item :: rest => Ok (max_from Nat.ltb item rest)
  end.

(** [if weights is None: weights = {...}] *)
Definition weights_or_default (weights : option dict) : dict :=
  match weights with
  | None => default_weights
  | Some w => w
  end.

(** [normalize_emotion(result.get('dominant_emotion', 'neutral'))] *)
Definition winner (result : dict) : outcome string :=
  normalize_emotion (get result "dominant_emotion" (VStr "neutral")).

Section Fuse.

(** The order in which a set built from a list is iterated. *)
Variable set_order : list string -> list string.

(** The [try] block of [fuse_results]. *)
Definition fuse_primary (text_result video_result audio_result : dict)
    (weights : option dict) : outcome FusedResult :=
  let weights := weights_or_default weights in
  text_emotion <- winner text_result ;;
  video_emotion <- winner video_result ;;
  audio_emotion <- winner audio_result ;;
  text_confidence <- _get_confidence text_result text_emotion ;;
  video_confidence <- _get_video_confidence video_result video_emotion ;;
  audio_confidence <- _get_confidence audio_result audio_emotion ;;
  let all_emotions := set_order [text_emotion; video_emotion; audio_emotion] in
  emotion_scores <-
    weighted_voting
      (vote weights text_emotion text_confidence video_emotion video_confidence
            audio_emotion audio_confidence)
      all_emotions ;;
  dominant_emotion <- max_key Qltb emotion_scores ;;
  dominant_score <- getitem emotion_scores dominant_emotion ;;
  let total_score := sum (values emotion_scores) in
  let emotion_scores :=
    if Qltb 0 total_score
    then percentages total_score emotion_scores
    else emotion_scores in
  Ok {| dominant_emotion := dominant_emotion;
        confidence := round2 (dominant_score * 100);
        emotion_scores := emotion_scores;
        modality_results :=
          {| text := {| emotion := text_emotion;
                        modality_confidence := round2 text_confidence |};
             video := {| emotion := video_emotion;
                         modality_confidence := round2 video_confidence |};
             audio := {| emotion := audio_emotion;
                         modality_confidence := round2 audio_confidence |} |} |}.

(** The [except Exception] block: a simple majority vote. *)
Definition fuse_fallback (text_result video_result audio_result : dict)
  : outcome FusedResult :=
  e0 <- winner text_result ;;
  e1 <- winner video_result ;;
  e2 <- winner audio_result ;;
  let emotions := [e0; e1; e2] in
  dominant_emotion <- most_common_1 (Counter emotions) ;;
  Ok {| dominant_emotion := dominant_emotion;
        confidence := 50;
        emotion_scores := [(dominant_emotion, 100%Q)];
        modality_results :=
          {| text := {| emotion := e0; modality_confidence := 333 # 10 |};
             video := {| emotion := e1; modality_confidence := 333 # 10 |};
             audio := {| emotion := e2; modality_confidence := 333 # 10 |} |} |}.

(** [fuse_results(text_result, video_result, audio_result, weights)] *)
Definition fuse_results (text_result video_result audio_result : dict)
    (weights : option dict) : outcome FusedResult :=
  match fuse_primary text_result video_result audio_result weights with
  | Ok fused => Ok fused
  | Raise _ => fuse_fallback text_result video_result audio_result
  end.

End Fuse.

End MultimodalFusion.

(** ** [gemini_chat.py] *)

Module GeminiChat.

Definition EMOTIONS : list (string * string) :=
  [ ("Neutral", "Let's do something fun! Would you like to play a quick game, hear an interesting fact, or get a fun challenge?");
    ("Happy", "You're in a great mood! Let's keep the positivity going. Want to listen to an uplifting story, get a fun challenge, or share a happy memory?");
    ("Sad", "I'm here for you. Would you like some calming music recommendations, a motivational story, or a virtual hug?");
    ("Angry", "I understand frustration can be tough. Want to try a quick breathing exercise, hear a calming story, or vent your thoughts?");
    ("Fear", "You're not alone! Let's ease your mind. Want a comforting quote, a guided relaxation, or an inspiring success story?");
    ("Disgust", "Let's distract your mind. Want to hear a joke, learn a new interesting fact, or play a quick word game?");
    ("Surprise", "Surprises can be fun! Want to share what happened, hear about a surprising event, or play a quick reaction game?");
    ("Calm", "A peaceful moment is precious. Would you like to try meditation, listen to soothing nature sounds, or explore a new mindfulness tip?") ].

Definition MOOD_ALIASES : list (string * string) :=
  [ ("fearful", "fear");
    ("fear", "fear");
    ("disgusted", "disgust");
    ("disgust", "disgust");
    ("surprised", "surprise");
    ("surprise", "surprise");
    ("neutral", "neutral");
    ("happy", "happy");
    ("sad", "sad");
    ("angry", "angry");
    ("calm", "calm") ].

Definition normalize_mood (mood : string) : string :=
  let key := PyStr.lower (PyStr.strip mood) in
  let normalized := get MOOD_ALIASES key key in
  PyStr.title normalized.

Definition get_mood_recommendation (mood : string) : string :=
  let normalized_mood := normalize_mood mood in
  get EMOTIONS normalized_mood
      "I didn't recognize that mood. Can you describe how you're feeling?".

Section Chat.

(** The generative-text collaborator: [generate_content model contents] is
    the [text] of the response of
    [client.models.generate_content(model=..., contents=...)], or the
    exception the call raises. *)
Variable generate_content : string -> string -> outcome string.

Definition process_message (message : string) : outcome string :=
  let mood := normalize_mood message in
  if mem mood EMOTIONS
  then Ok (get_mood_recommendation mood)
  else generate_content "gemini-2.5-flash" message.

End Chat.

End GeminiChat.

(** ** The notions the properties are stated with *)

Module Stated.

Import MultimodalFusion.

Local Open Scope Q_scope.
Local Open Scope list_scope.

(** The score-map extractor as the specification words it: every key is
    normalized, and the first key whose normalization is the target gives
    the confidence. *)
Fixpoint score_items_normalizing (items : dict) (target : string) : outcome Q :=
  match items with
  | [] => Ok (1 # 2)
  | (key, value) :: rest =>
      if String.eqb (normalize key) target
      then (x <- as_number value ;; Ok (x / 100))%py
      else score_items_normalizing rest target
  end.

Definition get_confidence_normalizing (result : dict) (target : string)
  : outcome Q :=
  match get result "confidence_scores" (VDict []) with
  | VDict d => score_items_normalizing d target
  | _ => Raise TypeError
  end.

(** Every score of the map is a number between 0 and 100. *)
Definition scores_in_range (d : dict) : Prop :=
  forall k v, In (k, v) d -> exists x, v = VNum x /\ 0 <= x <= 100.

(** Every frame count of the map is a number between 0 and [total]. *)
Definition counts_in_range (d : dict) (total : Q) : Prop :=
  forall k v, In (k, v) d -> exists c, v = VNum c /\ 0 <= c <= total.

(** The score of step 4 of the specification: the sum, over the modalities
    whose winner is [e], of confidence times weight. *)
Definition weighted_score
    (te : string) (tc : Q) (ve : string) (vc : Q) (ae : string) (ac : Q)
    (wt wv wa : Q) (e : string) : Q :=
  (if String.eqb e te then tc * wt else 0) +
  (if String.eqb e ve then vc * wv else 0) +
  (if String.eqb e ae then ac * wa else 0).

(** The number the voting loop leaves in [score] for [e], with the additions
    in the order the code makes them. *)
Definition tally
    (te : string) (tc : Q) (ve : string) (vc : Q) (ae : string) (ac : Q)
    (wt wv wa : Q) (e : string) : Q :=
  let score := 0 in
  let score := if String.eqb e te then score + tc * wt else score in
  let score := if String.eqb e ve then score + vc * wv else score in
  let score := if String.eqb e ae then score + ac * wa else score in
  score.

(** What the [try] block returns on the votes [te tc ve vc ae ac] and the
    weights [wt wv wa] once the set iteration is [e0 :: rest]. *)
Definition primary_answer
    (te : string) (tc : Q) (ve : string) (vc : Q) (ae : string) (ac : Q)
    (wt wv wa : Q) (e0 : string) (rest : list string) : FusedResult :=
  let score := tally te tc ve vc ae ac wt wv wa in
  let ws := map (fun e => (e, score e)) (e0 :: rest) in
  let dominant := max_from Qltb (e0, score e0)
                           (map (fun e => (e, score e)) rest) in
  let total_score := sum (values ws) in
  {| dominant_emotion := dominant;
     confidence := round2 (score dominant * 100);
     emotion_scores :=
       if Qltb 0 total_score then percentages total_score ws else ws;
     modality_results :=
       {| text := {| emotion := te; modality_confidence := round2 tc |};
          video := {| emotion := ve; modality_confidence := round2 vc |};
          audio := {| emotion := ae; modality_confidence := round2 ac |} |} |}.

(** The dominant label of a result is a string, or is absent. *)
Definition label_is_string (result : dict) : bool :=
  match get result "dominant_emotion" (VStr "neutral") with
  | VStr _ => true
  | _ => false
  end.

(** [x] is the most frequent element of [l], and the earliest such one: no
    element is more frequent, and the elements before the first occurrence
    of [x] are less frequent. *)
Definition first_most_frequent (x : string) (l : list string) : Prop :=
  exists pre post,
    l = pre ++ x :: post /\
    ~ In x pre /\
    (forall y, count_occ string_dec l y <= count_occ string_dec l x)%nat /\
    (forall y, In y pre ->
               count_occ string_dec l y < count_occ string_dec l x)%nat.

(** The worked example of the specification as three results: text on
    happy at 90 of 100, video on sad in 9 frames of 10, audio on sad at 90
    of 100. *)
Definition example_text : dict :=
  [("dominant_emotion", VStr "happy");
   ("confidence_scores", VDict [("happy", VNum 90); ("sad", VNum 10)])].

Definition example_video : dict :=
  [("dominant_emotion", VStr "Sad");
   ("emotion_distribution", VDict [("Happy", VNum 1); ("Sad", VNum 9)]);
   ("total_frames_processed", VNum 10)].

Definition example_audio : dict :=
  [("dominant_emotion", VStr "sad");
   ("confidence_scores", VDict [("sad", VNum 90)])].

End Stated.

(** ** [youtube_processor.py]: the video identifier *)

Module YouTubeProcessor.

(** One character of the class [[0-9A-Za-z_-]]. *)
Definition id_char (c : ascii) : bool :=
  let n := nat_of_ascii c in
  ((48 <=? n)%nat && (n <=? 57)%nat) || PyStr.is_upper c || PyStr.is_lower c
  || (n =? 95)%nat || (n =? 45)%nat.

(** [[0-9A-Za-z_-]{n}] at the start of [s]: the [n] characters it takes. *)
Fixpoint take_id (n : nat) (s : string) : option string :=
  match n with
  | O => Some EmptyString
  | S n' =>
      match s with
      | EmptyString => None
      | String c r =>
          if id_char c
          then match take_id n' r with
               | Some rest => Some (String c rest)
               | None => None
               end
          else None
      end
  end.

(** [s] without its first [n] characters. *)
Fixpoint skip (n : nat) (s : string) : string :=
  match n, s with
  | O, _ => s
  | S n', String _ r => skip n' r
  | S _, EmptyString => EmptyString
  end.

(** A pattern [(?:p1|p2|...)([0-9A-Za-z_-]{11})] tried at the start of [s]:
    the alternatives are literal texts, tried in order, and the group is
    the eleven characters after the one that fits. *)
Fixpoint match_here (alternatives : list string) (s : string) : option string :=
  match alternatives with
  | [] => None
  | p :: others =>
      if prefix p s
      then match take_id 11 (skip (String.length p) s) with
           | Some group => Some group
           | None => match_here others s
           end
      else match_here others s
  end.

(** [re.search(pattern, s)]: the match at the leftmost position that has
    one; the answer is [match.group(1)]. *)
Fixpoint search (alternatives : list string) (s : string) : option string :=
  match match_here alternatives s with
  | Some group => Some group
  | None =>
      match s with
      | EmptyString => None
      | String _ r => search alternatives r
      end
  end.

(** The six patterns, each by the alternatives of its literal part; the
    [.*] that ends the fourth takes no part in the group. *)
Definition patterns : list (list string) :=
  [ ["youtube.com/shorts/"];
    ["youtube.com/watch?v="];
    ["youtu.be/"];
    ["v="; "/"];
    ["embed/"];
    ["v/"] ].

(** [for pattern in patterns: ... return match.group(1)] and the final
    [return "unknown"]. *)
Fixpoint first_match (ps : list (list string)) (url : string) : string :=
  match ps with
  | [] => "unknown"
  | pattern :: rest =>
      match search pattern url with
      | Some group => group
      | None => first_match rest url
      end
  end.

Definition _extract_video_id (url : string) : string :=
  first_match patterns url.

End YouTubeProcessor.

(** ** [text_sentiment_analyzer.py] *)

Module TextSentimentAnalyzer.

(** The double quote, which the prompt and the JSON text contain. *)
Definition dq : string := String (ascii_of_nat 34) EmptyString.

(** [d[k] = v]: an existing key keeps its place, a new one goes last. *)
Fixpoint setitem (d : dict) (k : string) (v : value) : dict :=
  match d with
  | [] => [(k, v)]
  | (k', v') :: r =>
      if String.eqb k k' then (k', v) :: r else (k', v') :: setitem r k v
  end.

(** [not v] *)
Definition falsy (v : value) : bool :=
  match v with
  | VNone => true
  | VStr s => String.eqb s ""
  | VNum q => Qeq_bool q 0
  | VDict [] => true
  | VDict (_ :: _) => false
  end.

(** The body of a match of [\{[^}]+\}] after its first character, which is
    not a closing brace: the characters up to the next closing brace, with
    that brace. *)
Fixpoint up_to_close (s : string) : option string :=
  match s with
  | EmptyString => None
  | String c r =>
      if Ascii.eqb c "}"
      then Some (String c EmptyString)
      else match up_to_close r with
           | Some m => Some (String c m)
           | None => None
           end
  end.

(** [re.search(r'\{[^}]+\}', s, re.DOTALL)], giving [group(0)]. *)
Fixpoint search_json (s : string) : option string :=
  match s with
  | EmptyString => None
  | String c r =>
      if Ascii.eqb c "{"
      then match r with
           | String c' _ =>
               if Ascii.eqb c' "}"
               then search_json r
               else match up_to_close r with
                    | Some m => Some (String c m)
                    | None => search_json r
                    end
           | EmptyString => None
           end
      else search_json r
  end.

(** The emotions every successful answer scores. *)
Definition emotion_names : list string :=
  ["happy"; "sad"; "angry"; "fear"; "disgust"; "surprise"; "neutral"; "calm"].

(** The prompt, with [text[:2000]] in it. *)
Definition prompt (text : string) : string :=
  "Analyze the sentiment and emotion of the following text from a YouTube video transcript/description.

Text: " ++ substring 0 2000 text ++ "  # Limit to first 2000 chars

Based on the text content, classify the dominant emotion into one of these categories:
- happy
- sad
- angry
- fear
- disgust
- surprise
- neutral
- calm

Respond ONLY with a JSON object in this exact format:
{
    " ++ dq ++ "dominant_emotion" ++ dq ++ ": " ++ dq ++ "emotion_name" ++ dq ++ ",
    " ++ dq ++ "confidence" ++ dq ++ ": 0.0-1.0,
    " ++ dq ++ "reasoning" ++ dq ++ ": " ++ dq ++ "brief explanation" ++ dq ++ "
}

Do not include any other text, only the JSON object.".

(** The three early answers, which differ in their reasoning only. *)
Definition neutral_result (reasoning : string) : dict :=
  [ ("dominant_emotion", VStr "neutral");
    ("confidence_scores", VDict [("neutral", VNum 100)]);
    ("reasoning", VStr reasoning) ].

(** [v.strip()], [v.lower()] and [v.get(k, default)]: methods of strings and
    of dictionaries only. *)
Definition strip_of (v : value) : outcome string :=
  match v with
  | VStr s => Ok (PyStr.strip s)
  | _ => Raise AttributeError
  end.

Definition lower_of (v : value) : outcome string :=
  match v with
  | VStr s => Ok (PyStr.lower s)
  | _ => Raise AttributeError
  end.

Definition get_of (v : value) (k : string) (default : value) : outcome value :=
  match v with
  | VDict d => Ok (get d k default)
  | _ => Raise AttributeError
  end.

Section Analyze.

(** The collaborators: the [text] of the model's response (or the exception
    of the call, one of [exn]: a [JSONDecodeError] raised by the call itself
    is outside the model), [json.loads] with [None] for a [JSONDecodeError],
    [float] on a string, and [str(e)] for an exception. *)
Variable generate_content : string -> string -> outcome value.
Variable json_loads : string -> option value.
Variable float_of_str : string -> outcome Q.
Variable describe : exn -> string.

(** [float(v)] *)
Definition to_float (v : value) : outcome Q :=
  match v with
  | VNum q => Ok q
  | VStr s => float_of_str s
  | VNone | VDict _ => Raise TypeError
  end.

(** From [result = json.loads(response_text)] to the returned dictionary. *)
Definition interpret (result : value) : outcome dict :=
  label <- get_of result "dominant_emotion" (VStr "neutral") ;;
  emotion <- lower_of label ;;
  c <- get_of result "confidence" (VNum (1 # 2)) ;;
  confidence <- to_float c ;;
  let confidence_scores := map (fun e => (e, VNum 0)) emotion_names in
  let confidence_scores :=
    setitem confidence_scores emotion (VNum (confidence * 100)) in
  reasoning <- get_of result "reasoning" (VStr "") ;;
  Ok [ ("dominant_emotion", VStr emotion);
       ("confidence_scores", VDict confidence_scores);
       ("reasoning", reasoning) ].

(** The answer of [except Exception as e]. *)
Definition on_error (e : exn) : dict :=
  neutral_result ("Error: " ++ describe e).

(** The part of the [try] block after the length test, for a string. *)
Definition ask (text : string) : dict :=
  match generate_content "gemini-2.0-flash-exp" (prompt text) with
  | Raise e => on_error e
  | Ok response_text =>
      match strip_of response_text with
      | Raise e => on_error e
      | Ok response_text =>
          let response_text :=
            match search_json response_text with
            | Some json_match => json_match
            | None => response_text
            end in
          match json_loads response_text with
          | None => neutral_result "Error parsing AI response"
          | Some result =>
              match interpret result with
              | Ok answer => answer
              | Raise e => on_error e
              end
          end
      end
  end.

(** [analyze_sentiment(text)]: [not text or len(text.strip()) < 10], where
    [strip] exists on strings only. *)
Definition analyze_sentiment (text : value) : dict :=
  if falsy text
  then neutral_result "Insufficient text for analysis"
  else match text with
       | VStr s =>
           if (String.length (PyStr.strip s) <? 10)%nat
           then neutral_result "Insufficient text for analysis"
           else ask s
       | _ => on_error AttributeError
       end.

End Analyze.

End TextSentimentAnalyzer.

(** ** Further notions the properties are stated with *)

Module Notions.

Import MultimodalFusion.

(** A string that does not start with white space. *)
Definition headed (s : string) : Prop :=
  match s with
  | EmptyString => True
  | String c _ => PyStr.is_space c = false
  end.

(** The label a lookup falls back on: lower-cased, then stripped. *)
Definition folded (s : string) : string := PyStr.strip (PyStr.lower s).

(** The eight emotions the table maps to. *)
Definition canonical : list string :=
  ["happy"; "sad"; "angry"; "fear"; "disgust"; "surprise"; "neutral"; "calm"].

(** A value that arithmetic accepts. *)
Definition is_number (v : value) : bool :=
  match v with
  | VNum _ => true
  | _ => false
  end.

Definition all_numbers (d : dict) : bool :=
  forallb (fun kv => is_number (snd kv)) d.

(** The score map of a result is a dictionary of numbers, or is absent. *)
Definition scores_well_formed (result : dict) : bool :=
  match get result "confidence_scores" (VDict []) with
  | VDict d => all_numbers d
  | _ => false
  end.



(** An iteration order for sets: the distinct elements, each once. *)
Definition admissible (set_order : list string -> list string) : Prop :=
  forall l, Permutation (set_order l) (nodup string_dec l).

(** A second iteration order: the distinct elements, last to first. *)
Definition reversed_order (l : list string) : list string :=
  rev (nodup string_dec l).

(** Three results whose winners happy and sad tie under the default
    weights: no evidence for text and audio, no frame for video. *)
Definition tie_text : dict := [("dominant_emotion", VStr "happy")].

Definition tie_video : dict :=
  [("dominant_emotion", VStr "Neutral");
   ("emotion_distribution", VDict [("Neutral", VNum 0)]);
   ("total_frames_processed", VNum 10)].

Definition tie_audio : dict := [("dominant_emotion", VStr "sad")].

(** Every character of [s] is one of [[0-9A-Za-z_-]]. *)
Definition id_chars (s : string) : bool :=
  forallb YouTubeProcessor.id_char (list_ascii_of_string s).

(** [s] has no slash in it. *)
Definition no_slash (s : string) : bool :=
  forallb (fun c => negb (Ascii.eqb c "/")) (list_ascii_of_string s).

(** The literal texts of the six patterns. *)
Definition literals : list string :=
  List.concat YouTubeProcessor.patterns.

(** [p] and [s] differ at a position both have. *)
Fixpoint clash (p s : string) : bool :=
  match p, s with
  | String a p', String b s' => if Ascii.eqb a b then clash p' s' else true
  | _, _ => false
  end.

(** No text of [alts] can start at a position of [pre], whatever follows
    [pre]. *)
Fixpoint miss_all (alts : list string) (pre : string) : bool :=
  match pre with
  | EmptyString => true
  | String _ r => forallb (fun p => clash p pre) alts && miss_all alts r
  end.

(** What fusion needs of a text result: a string label, a score map of
    numbers, and a score for the label. *)
Definition usable_text_result (r : dict) : Prop :=
  exists label d x,
    get r "dominant_emotion" (VStr "neutral") = VStr label /\
    get r "confidence_scores" (VDict []) = VDict d /\
    all_numbers d = true /\
    assoc label d = Some (VNum x).

(** [s] has no closing brace in it. *)
Definition no_close (s : string) : bool :=
  forallb (fun c => negb (Ascii.eqb c "}")) (list_ascii_of_string s).

(** The text handed to [json.loads]: the match of the brace pattern when
    there is one, the whole stripped response otherwise. *)
Definition json_text (response_text : string) : string :=
  match TextSentimentAnalyzer.search_json response_text with
  | Some json_match => json_match
  | None => response_text
  end.

End Notions.

(** * Properties *)

(** ** Numbers *)

Local Open Scope Q_scope.
Local Open Scope list_scope.

Lemma Qltb_true (x y : Q) : Qltb x y = true <-> x < y.
Proof.
  unfold Qltb. rewrite Qlt_alt.
  destruct (x ?= y); split; congruence.
Qed.

Lemma Qltb_false (x y : Q) : Qltb x y = false <-> y <= x.
Proof.
  rewrite <- not_true_iff_false, Qltb_true.
  split; [apply Qnot_lt_le | apply Qle_not_lt].
Qed.

(** ** The confidence extractors *)

Module Extractors.

Import MultimodalFusion Stated.

(** The keys before the first hit are passed over. *)
Lemma video_items_skip (pre rest : dict) (total : value) (target : string) :
  (forall k, In k (keys pre) -> normalize k <> target) ->
  video_items (pre ++ rest) total target = video_items rest total target.
Proof.
  induction pre as [| [k v] pre IH]; intros Hpre; simpl; [reflexivity |].
  assert (Hk : String.eqb (normalize k) target = false).
  { apply String.eqb_neq. apply Hpre. simpl. now left. }
  rewrite Hk. apply IH. intros k' Hin. apply Hpre. simpl. now right.
Qed.

Lemma video_items_no_match (d : dict) (total : value) (target : string) :
  (forall k, In k (keys d) -> normalize k <> target) ->
  video_items d total target = Ok (1 # 2).
Proof.
  intros Hd. rewrite <- (app_nil_r d). now rewrite video_items_skip.
Qed.

(** C4. The frame-distribution extractor normalizes the frame-count keys in
    dictionary order; at the first key whose normalization is the target it
    returns [frame_count / total_frames_processed] when the total is
    positive and [0.0] when the total is zero (or below), and it returns
    the default [0.5] when no key matches. With [frame_counts = {"Happy": 8}]
    the answer for ["happy"] is 0.8 at a total of 10 and 0.0 at a total
    of 0. *)
Theorem video_confidence_first_match :
  (forall (result d : dict) (total : Q) (target : string),
      get result "emotion_distribution" (VDict []) = VDict d ->
      get result "total_frames_processed" (VNum 1) = VNum total ->
      (forall pre key count post,
          d = pre ++ (key, VNum count) :: post ->
          (forall k, In k (keys pre) -> normalize k <> target) ->
          normalize key = target ->
          0 < total ->
          _get_video_confidence result target = Ok (count / total)) /\
      (forall pre key v post,
          d = pre ++ (key, v) :: post ->
          (forall k, In k (keys pre) -> normalize k <> target) ->
          normalize key = target ->
          total <= 0 ->
          _get_video_confidence result target = Ok 0) /\
      ((forall k, In k (keys d) -> normalize k <> target) ->
       _get_video_confidence result target = Ok (1 # 2))) /\
  (exists q,
      _get_video_confidence
        [("emotion_distribution", VDict [("Happy", VNum 8)]);
         ("total_frames_processed", VNum 10)] "happy" = Ok q /\ q == 8 # 10) /\
  (exists q,
      _get_video_confidence
        [("emotion_distribution", VDict [("Happy", VNum 8)]);
         ("total_frames_processed", VNum 0)] "happy" = Ok q /\ q == 0).
Proof.
  split; [| split; eexists; (split; [reflexivity | reflexivity])].
  intros result d total target Hd Ht.
  unfold _get_video_confidence. rewrite Hd, Ht.
  split; [| split].
  - intros pre key count post -> Hpre Hkey Hpos.
    rewrite video_items_skip by assumption. simpl.
    apply String.eqb_eq in Hkey. rewrite Hkey.
    apply Qltb_true in Hpos. now rewrite Hpos.
  - intros pre key v post -> Hpre Hkey Hzero.
    rewrite video_items_skip by assumption. simpl.
    apply String.eqb_eq in Hkey. rewrite Hkey.
    apply Qltb_false in Hzero. now rewrite Hzero.
  - apply video_items_no_match.
Qed.

Lemma video_confidence_first_match_witness :
  _get_video_confidence
    [("dominant_emotion", VStr "Happy");
     ("emotion_distribution", VDict [("Sad", VNum 2); ("Happy", VNum 8)]);
     ("total_frames_processed", VNum 10)] "happy" = Ok (8 / 10).
Proof.
  refine (proj1 (proj1 video_confidence_first_match
                   [("dominant_emotion", VStr "Happy");
                    ("emotion_distribution",
                     VDict [("Sad", VNum 2); ("Happy", VNum 8)]);
                    ("total_frames_processed", VNum 10)]
                   [("Sad", VNum 2); ("Happy", VNum 8)] 10 "happy"
                   eq_refl eq_refl)
            [("Sad", VNum 2)] "Happy" 8 [] eq_refl _ eq_refl eq_refl).
  intros k [<- | []]. vm_compute. discriminate.
Defined.

(** What [_get_confidence] does: it looks the target up among the keys as
    they are spelled, and answers 0.5 when the target is no key. *)
Lemma get_confidence_direct_lookup
    (result d : dict) (target : string) :
  get result "confidence_scores" (VDict []) = VDict d ->
  (forall x, assoc target d = Some (VNum x) ->
             _get_confidence result target = Ok (x / 100)) /\
  (assoc target d = None -> _get_confidence result target = Ok (1 # 2)).
Proof.
  intros Hd. unfold _get_confidence, mem, getitem. rewrite Hd.
  split.
  - intros x Hx. now rewrite Hx.
  - intros Hnone. now rewrite Hnone.
Qed.

(** C3. The score-map extractor should normalize the score-map keys, as
    [_get_video_confidence] does for the frame counts, and return the value
    of the key that normalizes to the target divided by 100.0. The code
    misses it: for an audio result that reports ["fearful"] at 70, fusion
    asks for the normalized winner ["fear"]; the key ["fearful"] normalizes
    to ["fear"], the extractor with normalized keys answers 70/100, and
    [_get_confidence] finds no key spelled ["fear"] and answers 0.5. *)
Theorem get_confidence_misses_normalized_key :
  let result := [("dominant_emotion", VStr "fearful");
                 ("confidence_scores", VDict [("fearful", VNum 70)])] in
  winner result = Ok "fear" /\
  normalize "fearful" = "fear" /\
  get_confidence_normalizing result "fear" = Ok (70 / 100) /\
  _get_confidence result "fear" = Ok (1 # 2) /\
  ~ (1 # 2 == 70 / 100) /\
  _get_video_confidence
    [("dominant_emotion", VStr "fearful");
     ("emotion_distribution", VDict [("fearful", VNum 70)]);
     ("total_frames_processed", VNum 100)] "fear" = Ok (70 / 100).
Proof.
  repeat split. intros H. discriminate H.
Qed.

Lemma assoc_In {V : Type} (k : string) (d : list (string * V)) (v : V) :
  assoc k d = Some v -> In (k, v) d.
Proof.
  induction d as [| [k' v'] d IH]; simpl; [discriminate |].
  destruct (String.eqb_spec k k') as [-> | _].
  - intros [= ->]. now left.
  - intros H. right. now apply IH.
Qed.

Lemma video_items_unit_interval (d : dict) (total : Q) (target : string) :
  counts_in_range d total ->
  exists q, video_items d (VNum total) target = Ok q /\ 0 <= q <= 1.
Proof.
  induction d as [| [k v] d IH]; intros Hd; simpl.
  - exists (1 # 2). split; [reflexivity | lra].
  - destruct (String.eqb (normalize k) target).
    + destruct (Hd k v) as (c & -> & Hc0 & Hct); [now left |].
      destruct (Qltb 0 total) eqn:Hpos; simpl.
      * apply Qltb_true in Hpos. exists (c / total). split; [reflexivity |].
        split.
        -- apply Qle_shift_div_l; [assumption | lra].
        -- apply Qle_shift_div_r; [assumption | lra].
      * exists 0. split; [reflexivity | lra].
    + apply IH. intros k' v' Hin. apply (Hd k' v'). now right.
Qed.

(** C9, as stated, fails: a video result without [total_frames_processed]
    has no total that its frame counts could exceed, the code divides by the
    default total of 1, and a count of 8 comes back as a confidence of 8. *)
Lemma confidence_missing_total_counterexample :
  let result := [("dominant_emotion", VStr "Happy");
                 ("emotion_distribution", VDict [("Happy", VNum 8)])] in
  assoc "total_frames_processed" result = None /\
  (forall k v, In (k, v) [("Happy", VNum 8)] -> exists c, v = VNum c /\ 0 <= c) /\
  _get_video_confidence result "happy" = Ok (8 / 1) /\
  ~ (8 / 1 <= 1).
Proof.
  split; [reflexivity |]. split; [| split; [reflexivity |]].
  - intros k v [[= <- <-] | []]. exists 8. split; [reflexivity | lra].
  - intros H. vm_compute in H. now apply H.
Qed.

(** C9, amended. The extracted confidence lies in [0, 1] for every result
    whose score-map values are numbers between 0 and 100, and for every
    video result whose frame counts are numbers between 0 and the
    frames-processed total, where a missing [total_frames_processed] counts
    as a total of 1 (the default the code divides by); a missing or empty
    evidence payload is included. *)
Theorem confidence_in_unit_interval :
  (forall (result d : dict) (target : string),
      get result "confidence_scores" (VDict []) = VDict d ->
      scores_in_range d ->
      exists q, _get_confidence result target = Ok q /\ 0 <= q <= 1) /\
  (forall (result d : dict) (total : Q) (target : string),
      get result "emotion_distribution" (VDict []) = VDict d ->
      get result "total_frames_processed" (VNum 1) = VNum total ->
      counts_in_range d total ->
      exists q, _get_video_confidence result target = Ok q /\ 0 <= q <= 1).
Proof.
  split.
  - intros result d target Hd Hrange.
    unfold _get_confidence, mem, getitem. rewrite Hd.
    destruct (assoc target d) as [v |] eqn:Hv.
    + destruct (Hrange target v (assoc_In _ _ _ Hv)) as (x & -> & Hx0 & Hx100).
      exists (x / 100). split; [reflexivity |].
      split.
      * apply Qle_shift_div_l; lra.
      * apply Qle_shift_div_r; lra.
    + exists (1 # 2). split; [reflexivity | lra].
  - intros result d total target Hd Ht Hrange.
    unfold _get_video_confidence. rewrite Hd, Ht.
    now apply video_items_unit_interval.
Qed.

Lemma confidence_in_unit_interval_witness :
  (exists q, _get_confidence
               [("dominant_emotion", VStr "sad");
                ("confidence_scores", VDict [("sad", VNum 90)])] "sad" = Ok q /\
             0 <= q <= 1) /\
  (exists q, _get_video_confidence
               [("dominant_emotion", VStr "Happy");
                ("emotion_distribution", VDict [("Happy", VNum 1)])]
               "happy" = Ok q /\
             0 <= q <= 1).
Proof.
  split.
  - apply (proj1 confidence_in_unit_interval
             [("dominant_emotion", VStr "sad");
              ("confidence_scores", VDict [("sad", VNum 90)])]
             [("sad", VNum 90)] "sad" eq_refl).
    intros k v [[= <- <-] | []]. exists 90. split; [reflexivity | lra].
  - apply (proj2 confidence_in_unit_interval
             [("dominant_emotion", VStr "Happy");
              ("emotion_distribution", VDict [("Happy", VNum 1)])]
             [("Happy", VNum 1)] 1 "happy" eq_refl eq_refl).
    intros k v [[= <- <-] | []]. exists 1. split; [reflexivity | lra].
Defined.

End Extractors.

(** ** The mood mapper *)

Module MoodMapper.

Import GeminiChat.

(** C10. [process_message "Sad"] is the canned message stored for the sad
    mood, whatever the generative collaborator would answer; a message whose
    normalized mood is no key of [EMOTIONS], such as ["xyzzy"], is passed
    unchanged to the collaborator and the collaborator's answer is returned
    as it is. *)
Theorem process_message_canned_or_delegated
    (generate_content : string -> string -> outcome string) :
  assoc "Sad" EMOTIONS =
    Some "I'm here for you. Would you like some calming music recommendations, a motivational story, or a virtual hug?" /\
  process_message generate_content "Sad" =
    Ok "I'm here for you. Would you like some calming music recommendations, a motivational story, or a virtual hug?" /\
  mem (normalize_mood "xyzzy") EMOTIONS = false /\
  process_message generate_content "xyzzy" =
    generate_content "gemini-2.5-flash" "xyzzy" /\
  (forall message,
      mem (normalize_mood message) EMOTIONS = false ->
      process_message generate_content message =
        generate_content "gemini-2.5-flash" message).
Proof.
  repeat split.
  intros message Hmiss. unfold process_message. now rewrite Hmiss.
Qed.

Lemma process_message_canned_or_delegated_witness :
  process_message (fun _ contents => Ok (append "echo: " contents)) "plugh" =
    Ok "echo: plugh".
Proof.
  exact (proj2 (proj2 (proj2 (proj2
           (process_message_canned_or_delegated
              (fun _ contents => Ok (append "echo: " contents))))))
           "plugh" eq_refl).
Defined.

End MoodMapper.

(** ** The weighted fusion core *)

Module FusionFacts.

Import MultimodalFusion Stated.

Lemma bind_ok_inv {A B : Type} (m : outcome A) (k : A -> outcome B) (b : B) :
  bind m k = Ok b -> exists x, m = Ok x /\ k x = Ok b.
Proof.
  destruct m as [x | e]; simpl; [| discriminate].
  intros H. now exists x.
Qed.

Lemma tally_weighted_score te tc ve vc ae ac wt wv wa e :
  tally te tc ve vc ae ac wt wv wa e ==
  weighted_score te tc ve vc ae ac wt wv wa e.
Proof.
  unfold tally, weighted_score.
  destruct (String.eqb e te), (String.eqb e ve), (String.eqb e ae); ring.
Qed.

(** *** Rounding respects equality of rationals *)

Lemma round_half_even_comp (x y : Q) :
  x == y -> round_half_even x = round_half_even y.
Proof.
  intros Hxy. unfold round_half_even.
  rewrite (Qfloor_comp _ _ Hxy).
  assert (Hc : (x - inject_Z (Qfloor y) ?= 1 # 2) =
               (y - inject_Z (Qfloor y) ?= 1 # 2)).
  { apply Qcompare_comp; [now rewrite Hxy | reflexivity]. }
  now rewrite Hc.
Qed.

Lemma round2_comp (x y : Q) : x == y -> round2 x == round2 y.
Proof.
  intros Hxy. unfold round2.
  rewrite (round_half_even_comp (x * 100) (y * 100)); [reflexivity |].
  now rewrite Hxy.
Qed.

(** *** The voting loop *)

Lemma weighted_voting_keys (f : string -> outcome Q) (l : list string)
    (ws : list (string * Q)) :
  weighted_voting f l = Ok ws -> keys ws = l.
Proof.
  revert ws. induction l as [| e l IH]; intros ws; simpl.
  - now intros [= <-].
  - intros H.
    apply bind_ok_inv in H as (q & _ & H).
    apply bind_ok_inv in H as (ws' & Hws' & H).
    injection H as <-. simpl. f_equal. now apply IH.
Qed.

Lemma weighted_voting_total (f : string -> outcome Q) (g : string -> Q)
    (l : list string) :
  (forall e, f e = Ok (g e)) ->
  weighted_voting f l = Ok (map (fun e => (e, g e)) l).
Proof.
  intros Hf. induction l as [| e l IH]; simpl; [reflexivity |].
  now rewrite Hf, IH.
Qed.

Lemma assoc_map_self {V : Type} (g : string -> V) (l : list string) (e : string) :
  In e l -> assoc e (map (fun x => (x, g x)) l) = Some (g e).
Proof.
  induction l as [| x l IH]; simpl; [intros [] |].
  destruct (String.eqb_spec e x) as [-> | Hne]; [reflexivity |].
  intros [-> | Hin]; [contradiction | now apply IH].
Qed.

Lemma max_from_In {V : Type} (ltb : V -> V -> bool) (best : string * V)
    (items : list (string * V)) :
  In (max_from ltb best items) (fst best :: keys items).
Proof.
  revert best. induction items as [| item items IH]; intros best; simpl.
  - now left.
  - destruct (ltb (snd best) (snd item)).
    + right. apply IH.
    + destruct (IH best) as [H | H]; [now left | right; now right].
Qed.

Lemma max_key_In {V : Type} (ltb : V -> V -> bool) (d : list (string * V))
    (k : string) :
  max_key ltb d = Ok k -> In k (keys d).
Proof.
  destruct d as [| item rest]; simpl; [discriminate |].
  intros [= <-]. apply max_from_In.
Qed.

Lemma keys_percentages (total : Q) (ws : list (string * Q)) :
  keys (percentages total ws) = keys ws.
Proof.
  unfold keys, percentages. rewrite map_map. reflexivity.
Qed.

Lemma keys_map_self {V : Type} (g : string -> V) (l : list string) :
  keys (map (fun e => (e, g e)) l) = l.
Proof.
  unfold keys. rewrite map_map. apply map_id.
Qed.

(** *** Sums *)

Lemma fold_left_Qplus (l : list Q) (acc : Q) :
  fold_left Qplus l acc == acc + sum l.
Proof.
  unfold sum. revert acc. induction l as [| x l IH]; intros acc; simpl.
  - ring.
  - rewrite (IH (acc + x)), (IH (0 + x)). ring.
Qed.

Lemma sum_cons (x : Q) (l : list Q) : sum (x :: l) == x + sum l.
Proof.
  unfold sum at 1. simpl. rewrite fold_left_Qplus. ring.
Qed.

Lemma sum_map_ext {A : Type} (f g : A -> Q) (l : list A) :
  (forall x, f x == g x) -> sum (map f l) == sum (map g l).
Proof.
  intros Hfg. induction l as [| x l IH]; simpl; [reflexivity |].
  now rewrite !sum_cons, Hfg, IH.
Qed.

Lemma sum_map_plus {A : Type} (f g : A -> Q) (l : list A) :
  sum (map (fun x => f x + g x) l) == sum (map f l) + sum (map g l).
Proof.
  induction l as [| x l IH]; simpl; [reflexivity |].
  rewrite !sum_cons, IH. ring.
Qed.

Lemma sum_map_zero {A : Type} (f : A -> Q) (l : list A) :
  (forall x, In x l -> f x == 0) -> sum (map f l) == 0.
Proof.
  intros Hf. induction l as [| x l IH]; simpl; [reflexivity |].
  rewrite sum_cons, Hf, IH; [ring | | now left].
  intros y Hy. apply Hf. now right.
Qed.

(** One emotion of a duplicate-free list collects its contribution once. *)
Lemma sum_map_indicator (x : string) (c : Q) (l : list string) :
  NoDup l -> In x l ->
  sum (map (fun e => if String.eqb e x then c else 0) l) == c.
Proof.
  induction l as [| y l IH]; intros Hnd Hin; [destruct Hin |].
  apply NoDup_cons_iff in Hnd as [Hy Hnd].
  simpl map. rewrite sum_cons.
  destruct (String.eqb_spec y x) as [-> | Hne].
  - rewrite sum_map_zero; [ring |].
    intros e He. destruct (String.eqb_spec e x) as [-> | _];
      [contradiction | reflexivity].
  - destruct Hin as [-> | Hin]; [contradiction |].
    rewrite IH by assumption. ring.
Qed.

Lemma sum_percentages (total : Q) (ws : list (string * Q)) :
  sum (values (percentages total ws)) == sum (values ws) / total * 100.
Proof.
  unfold values, percentages. rewrite map_map. simpl.
  induction ws as [| [k x] ws IH]; simpl.
  - unfold sum. simpl. unfold Qdiv. ring.
  - rewrite !sum_cons, IH. unfold Qdiv. ring.
Qed.

Lemma values_map_self (g : string -> Q) (l : list string) :
  values (map (fun e => (e, g e)) l) = map g l.
Proof.
  unfold values. rewrite map_map. reflexivity.
Qed.

(** *** The primary path on well-formed evidence *)

Section Primary.

Variable set_order : list string -> list string.
Variables (t v a : dict) (w : option dict).
Variables (te ve ae : string) (tc vc ac wt wv wa : Q).

Hypothesis Hte : winner t = Ok te.
Hypothesis Hve : winner v = Ok ve.
Hypothesis Hae : winner a = Ok ae.
Hypothesis Htc : _get_confidence t te = Ok tc.
Hypothesis Hvc : _get_video_confidence v ve = Ok vc.
Hypothesis Hac : _get_confidence a ae = Ok ac.
Hypothesis Hwt : getitem (weights_or_default w) "text" = Ok (VNum wt).
Hypothesis Hwv : getitem (weights_or_default w) "video" = Ok (VNum wv).
Hypothesis Hwa : getitem (weights_or_default w) "audio" = Ok (VNum wa).

Let score : string -> Q := tally te tc ve vc ae ac wt wv wa.
Let answer : string -> list string -> FusedResult :=
  primary_answer te tc ve vc ae ac wt wv wa.

Lemma vote_tally (e : string) :
  vote (weights_or_default w) te tc ve vc ae ac e = Ok (score e).
Proof.
  unfold vote, weighted, score, tally. rewrite Hwt, Hwv, Hwa. simpl bind.
  destruct (String.eqb e te), (String.eqb e ve), (String.eqb e ae);
    reflexivity.
Qed.

Lemma fuse_primary_answer (e0 : string) (rest : list string) :
  set_order [te; ve; ae] = e0 :: rest ->
  fuse_primary set_order t v a w = Ok (answer e0 rest).
Proof.
  intros Horder. unfold fuse_primary.
  rewrite Hte, Hve, Hae. simpl bind. rewrite Htc, Hvc, Hac. simpl bind.
  rewrite (weighted_voting_total _ score) by apply vote_tally.
  rewrite Horder. simpl bind.
  unfold getitem.
  rewrite (assoc_map_self score (e0 :: rest)).
  - reflexivity.
  - pose proof (max_from_In Qltb (e0, score e0)
                  (map (fun e => (e, score e)) rest)) as Hin.
    rewrite keys_map_self in Hin. exact Hin.
Qed.

Lemma fuse_primary_empty_order :
  set_order [te; ve; ae] = [] ->
  fuse_primary set_order t v a w = Raise ValueError.
Proof.
  intros Horder. unfold fuse_primary.
  rewrite Hte, Hve, Hae. simpl bind. rewrite Htc, Hvc, Hac. simpl bind.
  rewrite (weighted_voting_total _ score) by apply vote_tally.
  rewrite Horder. reflexivity.
Qed.

Lemma fuse_primary_cases (r : FusedResult) :
  fuse_primary set_order t v a w = Ok r ->
  exists e0 rest,
    set_order [te; ve; ae] = e0 :: rest /\ r = answer e0 rest.
Proof.
  intros Hr. destruct (set_order [te; ve; ae]) as [| e0 rest] eqn:Horder.
  - rewrite fuse_primary_empty_order in Hr by assumption. discriminate.
  - rewrite (fuse_primary_answer e0 rest Horder) in Hr.
    injection Hr as <-. now exists e0, rest.
Qed.

(** C5. On the primary path the [confidence] of the result is the weighted
    score of the dominant emotion as it stands before [emotion_scores] is
    rescaled to percentages, multiplied by 100 and rounded to two
    decimals. *)
Theorem confidence_is_pre_rescale_score (r : FusedResult) :
  fuse_primary set_order t v a w = Ok r ->
  confidence r ==
  round2 (weighted_score te tc ve vc ae ac wt wv wa (dominant_emotion r) * 100).
Proof.
  intros Hr. destruct (fuse_primary_cases r Hr) as (e0 & rest & _ & ->).
  simpl. apply round2_comp.
  unfold score. now rewrite tally_weighted_score.
Qed.

(** Without any confidence, or without any weight, every score is zero. *)
Lemma score_zero (e : string) :
  (tc == 0 /\ vc == 0 /\ ac == 0) \/ (wt == 0 /\ wv == 0 /\ wa == 0) ->
  score e == 0.
Proof.
  intros H. unfold score. rewrite tally_weighted_score.
  unfold weighted_score.
  destruct (String.eqb e te), (String.eqb e ve), (String.eqb e ae);
    destruct H as [(H1 & H2 & H3) | (H1 & H2 & H3)];
    rewrite ?H1, ?H2, ?H3; ring.
Qed.

Section Ordered.

(** A set is iterated once per distinct element. *)
Hypothesis set_order_distinct :
  forall l, Permutation (set_order l) (nodup string_dec l).

Lemma set_order_NoDup (l : list string) : NoDup (set_order l).
Proof.
  apply (Permutation_NoDup (Permutation_sym (set_order_distinct l))).
  apply NoDup_nodup.
Qed.

Lemma set_order_In (l : list string) (x : string) :
  In x (set_order l) <-> In x l.
Proof.
  split; intros H.
  - apply (nodup_In string_dec).
    now apply (Permutation_in _ (set_order_distinct l)).
  - apply (Permutation_in _ (Permutation_sym (set_order_distinct l))).
    now apply nodup_In.
Qed.

(** The scores of the distinct winners add up to the three contributions. *)
Lemma total_score_contributions :
  sum (map score (set_order [te; ve; ae])) == tc * wt + vc * wv + ac * wa.
Proof.
  rewrite (sum_map_ext score (weighted_score te tc ve vc ae ac wt wv wa))
    by (intros e; apply tally_weighted_score).
  unfold weighted_score. rewrite !sum_map_plus.
  rewrite !sum_map_indicator;
    try apply set_order_NoDup; try apply set_order_In; simpl; auto.
  reflexivity.
Qed.

(** C8. On the primary path the values of [emotion_scores] add up to 100
    (so also within 0.01 of it) whenever the total weighted score is
    positive, and to 0 when the three confidences, or the three weights, are
    all zero. *)
Theorem emotion_scores_sum (r : FusedResult) :
  fuse_primary set_order t v a w = Ok r ->
  (0 < tc * wt + vc * wv + ac * wa ->
   sum (values (emotion_scores r)) == 100 /\
   Qabs (sum (values (emotion_scores r)) - 100) <= 1 # 100) /\
  ((tc == 0 /\ vc == 0 /\ ac == 0) \/ (wt == 0 /\ wv == 0 /\ wa == 0) ->
   sum (values (emotion_scores r)) == 0).
Proof.
  intros Hr. destruct (fuse_primary_cases r Hr) as (e0 & rest & Horder & ->).
  unfold answer, primary_answer. fold score. cbn [emotion_scores].
  rewrite <- Horder. rewrite values_map_self.
  split.
  - intros Hpos.
    assert (Htotal : 0 < sum (map score (set_order [te; ve; ae])))
      by now rewrite total_score_contributions.
    assert (Hsum : sum (values (percentages
                     (sum (map score (set_order [te; ve; ae])))
                     (map (fun e => (e, score e)) (set_order [te; ve; ae]))))
                   == 100).
    { rewrite sum_percentages, values_map_self. field. lra. }
    rewrite (proj2 (Qltb_true _ _) Htotal).
    split; [exact Hsum |].
    rewrite Hsum. vm_compute. discriminate.
  - intros Hzero.
    assert (Htotal : sum (map score (set_order [te; ve; ae])) == 0)
      by (apply sum_map_zero; intros e _; now apply score_zero).
    assert (Hle : sum (map score (set_order [te; ve; ae])) <= 0) by lra.
    rewrite (proj2 (Qltb_false _ _) Hle), values_map_self.
    exact Htotal.
Qed.

End Ordered.

End Primary.

(** *** The worked example of the specification *)

Section HappySadSad.

Variable set_order : list string -> list string.
Hypothesis set_order_distinct :
  forall l, Permutation (set_order l) (nodup string_dec l).

Variables (t v a : dict) (tc vc ac : Q).
Hypothesis Hte : winner t = Ok "happy".
Hypothesis Hve : winner v = Ok "sad".
Hypothesis Hae : winner a = Ok "sad".
Hypothesis Htc : _get_confidence t "happy" = Ok tc.
Hypothesis Hvc : _get_video_confidence v "sad" = Ok vc.
Hypothesis Hac : _get_confidence a "sad" = Ok ac.
Hypothesis Htc9 : tc == 9 # 10.
Hypothesis Hvc9 : vc == 9 # 10.
Hypothesis Hac9 : ac == 9 # 10.

Let score : string -> Q :=
  tally "happy" tc "sad" vc "sad" ac (3 # 10) (4 # 10) (3 # 10).

Lemma score_sad : score "sad" == 63 # 100.
Proof.
  change (score "sad") with (0 + vc * (4 # 10) + ac * (3 # 10)). lra.
Qed.

Lemma score_happy : score "happy" == 27 # 100.
Proof.
  change (score "happy") with (0 + tc * (3 # 10)). lra.
Qed.

Lemma set_order_two :
  set_order ["happy"; "sad"; "sad"] = ["happy"; "sad"] \/
  set_order ["happy"; "sad"; "sad"] = ["sad"; "happy"].
Proof.
  pose proof (set_order_distinct ["happy"; "sad"; "sad"]) as P.
  change (nodup string_dec ["happy"; "sad"; "sad"]) with ["happy"; "sad"] in P.
  apply Permutation_sym, Permutation_length_2_inv in P. exact P.
Qed.

(** C1. With the text modality on ["happy"] and the video and audio
    modalities on ["sad"], each with an extracted confidence of 0.9, and
    the default weights, the voting loop gives sad 0.63 and happy 0.27;
    [fuse_results] returns the dominant emotion ["sad"] and the rescaled
    scores sad 70 and happy 30, and no other emotion. *)
Theorem fuse_happy_sad_sad :
  (exists ws s h,
      weighted_voting
        (vote (weights_or_default None) "happy" tc "sad" vc "sad" ac)
        (set_order ["happy"; "sad"; "sad"]) = Ok ws /\
      assoc "sad" ws = Some s /\ s == 63 # 100 /\
      assoc "happy" ws = Some h /\ h == 27 # 100) /\
  (exists r s h,
      fuse_results set_order t v a None = Ok r /\
      dominant_emotion r = "sad" /\
      assoc "sad" (emotion_scores r) = Some s /\ s == 70 /\
      assoc "happy" (emotion_scores r) = Some h /\ h == 30 /\
      Permutation (keys (emotion_scores r)) ["sad"; "happy"]).
Proof.
  pose proof score_sad as Hs. pose proof score_happy as Hh.
  assert (Hvote : forall e,
             vote (weights_or_default None) "happy" tc "sad" vc "sad" ac e =
             Ok (score e))
    by (intros e; now apply vote_tally).
  split.
  - rewrite (weighted_voting_total _ score _ Hvote).
    destruct set_order_two as [-> | ->];
      eexists; exists (score "sad"), (score "happy"); repeat split; assumption.
  - unfold fuse_results.
    destruct set_order_two as [Horder | Horder];
      rewrite (fuse_primary_answer set_order t v a None
                 "happy" "sad" "sad" tc vc ac (3 # 10) (4 # 10) (3 # 10)
                 Hte Hve Hae Htc Hvc Hac eq_refl eq_refl eq_refl _ _ Horder);
      unfold primary_answer; fold score;
      cbn [map values snd fst max_from];
      match goal with
      | |- context [sum ?l] =>
          assert (Htotal : sum l == 9 # 10)
            by (rewrite !sum_cons; unfold sum; simpl fold_left; lra);
          assert (Hpos : Qltb 0 (sum l) = true)
            by (apply Qltb_true; rewrite Htotal; reflexivity);
          rewrite Hpos
      end.
    + assert (Hlt : Qltb (score "happy") (score "sad") = true)
        by (apply Qltb_true; lra).
      rewrite Hlt.
      eexists; exists (score "sad" / sum [score "happy"; score "sad"] * 100),
                 (score "happy" / sum [score "happy"; score "sad"] * 100).
      split; [reflexivity |]. cbn [dominant_emotion emotion_scores].
      split; [reflexivity |].
      split; [reflexivity |]. split; [rewrite Htotal, Hs; reflexivity |].
      split; [reflexivity |]. split; [rewrite Htotal, Hh; reflexivity |].
      apply perm_swap.
    + assert (Hlt : Qltb (score "sad") (score "happy") = false)
        by (apply Qltb_false; lra).
      rewrite Hlt.
      eexists; exists (score "sad" / sum [score "sad"; score "happy"] * 100),
                 (score "happy" / sum [score "sad"; score "happy"] * 100).
      split; [reflexivity |]. cbn [dominant_emotion emotion_scores].
      split; [reflexivity |].
      split; [reflexivity |]. split; [rewrite Htotal, Hs; reflexivity |].
      split; [reflexivity |]. split; [rewrite Htotal, Hh; reflexivity |].
      apply Permutation_refl.
Qed.

End HappySadSad.

(** *** The fallback path *)

Lemma winner_of_string (result : dict) :
  label_is_string result = true -> exists e, winner result = Ok e.
Proof.
  unfold label_is_string, winner.
  destruct (get result "dominant_emotion" (VStr "neutral"));
    try discriminate.
  intros _. eexists. reflexivity.
Qed.

Lemma winner_default (result : dict) :
  assoc "dominant_emotion" result = None -> winner result = Ok "neutral".
Proof.
  intros Hnone. unfold winner, get. now rewrite Hnone.
Qed.

Ltac count_cases :=
  intros; simpl count_occ;
  repeat match goal with
         | |- context [string_dec ?x ?y] => destruct (string_dec x y)
         end;
  subst; try congruence; try lia.

(** The majority of three labels, ties going to the earliest label. *)
Lemma most_common_three (e0 e1 e2 : string) :
  exists dom,
    most_common_1 (Counter [e0; e1; e2]) = Ok dom /\
    first_most_frequent dom [e0; e1; e2].
Proof.
  unfold Counter. cbn [fold_left count_up].
  destruct (String.eqb_spec e0 e1) as [<- | H01].
  - (* text and video agree *)
    exists e0. split.
    + cbn [count_up]. destruct (String.eqb e0 e2); reflexivity.
    + exists [], [e0; e2]. repeat split; [intros [] | count_cases | intros y []].
  - cbn [count_up]. destruct (String.eqb_spec e0 e2) as [<- | H02].
    + (* text and audio agree *)
      exists e0. split; [reflexivity |].
      exists [], [e1; e0]. repeat split; [intros [] | count_cases | intros y []].
    + destruct (String.eqb_spec e1 e2) as [<- | H12].
      * (* video and audio agree against text *)
        exists e1. split; [reflexivity |].
        exists [e0], [e1]. repeat split.
        -- intros [-> | []]. now apply H01.
        -- count_cases.
        -- intros y [<- | []]. count_cases.
      * (* all three differ *)
        exists e0. split; [reflexivity |].
        exists [], [e1; e2].
        repeat split; [intros [] | count_cases | intros y []].
Qed.

Lemma fuse_fallback_answer (t v a : dict) (e0 e1 e2 : string) :
  winner t = Ok e0 -> winner v = Ok e1 -> winner a = Ok e2 ->
  exists dom,
    fuse_fallback t v a =
      Ok {| dominant_emotion := dom;
            confidence := 50;
            emotion_scores := [(dom, 100)];
            modality_results :=
              {| text := {| emotion := e0; modality_confidence := 333 # 10 |};
                 video := {| emotion := e1; modality_confidence := 333 # 10 |};
                 audio := {| emotion := e2; modality_confidence := 333 # 10 |} |} |} /\
    first_most_frequent dom [e0; e1; e2].
Proof.
  intros H0 H1 H2.
  destruct (most_common_three e0 e1 e2) as (dom & Hdom & Hfirst).
  exists dom. split; [| exact Hfirst].
  unfold fuse_fallback. rewrite H0, H1, H2. cbn [bind].
  now rewrite Hdom.
Qed.

(** C2, as stated, fails: a video result whose dominant label is [None]
    makes [normalize_emotion] raise in the [try] block and again in the
    [except] block, so the exception reaches the caller. *)
Lemma fuse_results_raises_counterexample :
  fuse_results (nodup string_dec)
    [("dominant_emotion", VStr "happy")]
    [("dominant_emotion", VNone)]
    [("dominant_emotion", VStr "happy")]
    None = Raise AttributeError.
Proof. reflexivity. Qed.

(** C2, amended. For every triple of modality-result dictionaries whose
    dominant labels are strings or absent, and for every weights argument,
    [fuse_results] returns a fused result and raises nothing; three empty
    dictionaries are such a triple. *)
Theorem fuse_results_returns :
  (forall set_order (t v a : dict) (w : option dict),
      label_is_string t = true ->
      label_is_string v = true ->
      label_is_string a = true ->
      exists r, fuse_results set_order t v a w = Ok r) /\
  (forall set_order (w : option dict),
      exists r, fuse_results set_order [] [] [] w = Ok r).
Proof.
  assert (Hmain : forall set_order (t v a : dict) (w : option dict),
             label_is_string t = true ->
             label_is_string v = true ->
             label_is_string a = true ->
             exists r, fuse_results set_order t v a w = Ok r).
  { intros set_order t v a w Ht Hv Ha.
    destruct (winner_of_string t Ht) as (e0 & H0).
    destruct (winner_of_string v Hv) as (e1 & H1).
    destruct (winner_of_string a Ha) as (e2 & H2).
    unfold fuse_results.
    destruct (fuse_primary set_order t v a w) as [r | e].
    - now exists r.
    - destruct (fuse_fallback_answer t v a e0 e1 e2 H0 H1 H2)
        as (dom & Hdom & _).
      eexists. exact Hdom. }
  split; [exact Hmain |].
  intros set_order w. now apply Hmain.
Qed.

Lemma fuse_results_returns_witness :
  exists r,
    fuse_results (nodup string_dec)
      [("dominant_emotion", VStr "Happy"); ("confidence_scores", VNone)]
      [("dominant_emotion", VStr "Sad");
       ("emotion_distribution", VDict [("Sad", VStr "many")])]
      [] (Some []) = Ok r.
Proof.
  exact (proj1 fuse_results_returns (nodup string_dec)
           [("dominant_emotion", VStr "Happy"); ("confidence_scores", VNone)]
           [("dominant_emotion", VStr "Sad");
            ("emotion_distribution", VDict [("Sad", VStr "many")])]
           [] (Some []) eq_refl eq_refl eq_refl).
Defined.

(** C6, as stated, fails: with an audio result whose dominant label is
    [None] the primary path fails, and the fallback path, which normalizes
    the same label, fails too. *)
Lemma fallback_fails_counterexample :
  let t := [("dominant_emotion", VStr "sad");
            ("confidence_scores", VDict [("sad", VNum 90)])] in
  let a := [("dominant_emotion", VNone); ("confidence_scores", VDict [])] in
  fuse_primary (nodup string_dec) t [] a None = Raise AttributeError /\
  fuse_fallback t [] a = Raise AttributeError /\
  fuse_results (nodup string_dec) t [] a None = Raise AttributeError.
Proof. repeat split. Qed.

(** C6, amended. An absent dominant label counts as ["neutral"]. Whenever
    the primary path fails and the three dominant labels are strings or
    absent, the fallback path succeeds: the result names the most frequent
    of the three normalized labels, the earliest one on a tie (text, then
    video, then audio), with [confidence] 50.0, [emotion_scores] holding
    that label alone at 100.0, and every modality listed with its normalized
    label and the flat confidence 33.3. *)
Theorem fallback_majority_vote :
  (forall result : dict,
      assoc "dominant_emotion" result = None ->
      winner result = Ok "neutral") /\
  (forall set_order (t v a : dict) (w : option dict) (e : exn)
          (e0 e1 e2 : string),
      fuse_primary set_order t v a w = Raise e ->
      winner t = Ok e0 -> winner v = Ok e1 -> winner a = Ok e2 ->
      exists dom,
        fuse_results set_order t v a w =
          Ok {| dominant_emotion := dom;
                confidence := 50;
                emotion_scores := [(dom, 100)];
                modality_results :=
                  {| text := {| emotion := e0;
                                modality_confidence := 333 # 10 |};
                     video := {| emotion := e1;
                                 modality_confidence := 333 # 10 |};
                     audio := {| emotion := e2;
                                 modality_confidence := 333 # 10 |} |} |} /\
        first_most_frequent dom [e0; e1; e2]).
Proof.
  split; [exact winner_default |].
  intros set_order t v a w e e0 e1 e2 Hfail H0 H1 H2.
  unfold fuse_results. rewrite Hfail.
  now apply fuse_fallback_answer.
Qed.

Lemma fallback_majority_vote_witness :
  exists dom,
    fuse_results (nodup string_dec)
      [("dominant_emotion", VStr "Happy"); ("confidence_scores", VNone)]
      [("dominant_emotion", VStr "Sad")]
      [("dominant_emotion", VStr "sad")]
      None =
      Ok {| dominant_emotion := dom;
            confidence := 50;
            emotion_scores := [(dom, 100)];
            modality_results :=
              {| text := {| emotion := "happy";
                            modality_confidence := 333 # 10 |};
                 video := {| emotion := "sad";
                             modality_confidence := 333 # 10 |};
                 audio := {| emotion := "sad";
                             modality_confidence := 333 # 10 |} |} |} /\
    first_most_frequent dom ["happy"; "sad"; "sad"].
Proof.
  exact (proj2 fallback_majority_vote (nodup string_dec)
           [("dominant_emotion", VStr "Happy"); ("confidence_scores", VNone)]
           [("dominant_emotion", VStr "Sad")]
           [("dominant_emotion", VStr "sad")]
           None TypeError "happy" "sad" "sad"
           eq_refl eq_refl eq_refl eq_refl).
Defined.

(** *** Which emotions a result can name *)

Lemma fuse_primary_inv set_order (t v a : dict) (w : option dict)
    (r : FusedResult) :
  fuse_primary set_order t v a w = Ok r ->
  exists te ve ae,
    winner t = Ok te /\ winner v = Ok ve /\ winner a = Ok ae /\
    keys (emotion_scores r) = set_order [te; ve; ae] /\
    In (dominant_emotion r) (set_order [te; ve; ae]).
Proof.
  unfold fuse_primary. intros H.
  apply bind_ok_inv in H as (te & Hte & H).
  apply bind_ok_inv in H as (ve & Hve & H).
  apply bind_ok_inv in H as (ae & Hae & H).
  apply bind_ok_inv in H as (tc & _ & H).
  apply bind_ok_inv in H as (vc & _ & H).
  apply bind_ok_inv in H as (ac & _ & H).
  apply bind_ok_inv in H as (ws & Hws & H).
  apply bind_ok_inv in H as (dom & Hdom & H).
  apply bind_ok_inv in H as (ds & _ & H).
  injection H as <-. cbn [emotion_scores dominant_emotion].
  apply weighted_voting_keys in Hws. apply max_key_In in Hdom.
  exists te, ve, ae. repeat split; try assumption.
  - destruct (Qltb 0 (sum (values ws)));
      [rewrite keys_percentages |]; exact Hws.
  - now rewrite <- Hws.
Qed.

Lemma first_most_frequent_In (x : string) (l : list string) :
  first_most_frequent x l -> In x l.
Proof.
  intros (pre & post & -> & _). apply in_or_app. right. now left.
Qed.

(** C7, as stated, fails: with weights that lack the audio entry the
    primary path fails on well-formed results, the fallback path lists the
    winner alone, and ["happy"], the text modality's winner, is no key of
    [emotion_scores]. *)
Lemma fallback_scores_counterexample :
  let w := Some [("text", VNum (1 # 2)); ("video", VNum (1 # 2))] in
  exists r,
    fuse_results (nodup string_dec)
      example_text example_video example_audio w = Ok r /\
    winner example_text = Ok "happy" /\
    keys (emotion_scores r) = ["sad"] /\
    ~ In "happy" (keys (emotion_scores r)).
Proof.
  eexists. split; [reflexivity |]. split; [reflexivity |].
  split; [reflexivity |].
  intros [H | []]. discriminate H.
Qed.

(** C7, amended. The dominant emotion of every result of [fuse_results] is
    the normalized winner of one of the three modalities, and every key of
    [emotion_scores] is such a winner, so an emotion no modality chose never
    appears. On the primary path the keys are exactly the distinct
    normalized winners; on the fallback path the only key is the dominant
    emotion. *)
Theorem fused_emotions_are_winners set_order (t v a : dict)
    (w : option dict) (r : FusedResult) :
  (forall l, Permutation (set_order l) (nodup string_dec l)) ->
  fuse_results set_order t v a w = Ok r ->
  exists te ve ae,
    winner t = Ok te /\ winner v = Ok ve /\ winner a = Ok ae /\
    In (dominant_emotion r) [te; ve; ae] /\
    (forall k, In k (keys (emotion_scores r)) -> In k [te; ve; ae]) /\
    (fuse_primary set_order t v a w = Ok r ->
     Permutation (keys (emotion_scores r)) (nodup string_dec [te; ve; ae])) /\
    (forall e, fuse_primary set_order t v a w = Raise e ->
               keys (emotion_scores r) = [dominant_emotion r]).
Proof.
  intros Horder. unfold fuse_results.
  destruct (fuse_primary set_order t v a w) as [r' | e] eqn:Hprimary.
  - intros [= ->].
    destruct (fuse_primary_inv _ _ _ _ _ _ Hprimary)
      as (te & ve & ae & Hte & Hve & Hae & Hkeys & Hdom).
    exists te, ve, ae. repeat split; try assumption.
    + exact (proj1 (set_order_In set_order Horder _ _) Hdom).
    + intros k Hk. rewrite Hkeys in Hk.
      exact (proj1 (set_order_In set_order Horder _ _) Hk).
    + intros _. rewrite Hkeys. apply Horder.
    + discriminate.
  - intros Hfallback.
    pose proof Hfallback as H. unfold fuse_fallback in H.
    apply bind_ok_inv in H as (e0 & H0 & H).
    apply bind_ok_inv in H as (e1 & H1 & H).
    apply bind_ok_inv in H as (e2 & H2 & _).
    destruct (fuse_fallback_answer t v a e0 e1 e2 H0 H1 H2)
      as (dom & Hdom & Hfirst).
    rewrite Hdom in Hfallback. injection Hfallback as <-.
    apply first_most_frequent_In in Hfirst.
    exists e0, e1, e2. cbn [dominant_emotion emotion_scores keys map fst].
    repeat split; try assumption.
    + intros k [<- | []]. exact Hfirst.
    + discriminate.
Qed.

(** *** The worked example, evaluated *)

Lemma nodup_order_distinct (l : list string) :
  Permutation (nodup string_dec l) (nodup string_dec l).
Proof. apply Permutation_refl. Defined.

Lemma fuse_happy_sad_sad_witness :
  (exists ws s h,
      weighted_voting
        (vote (weights_or_default None) "happy" (90 / 100) "sad" (9 / 10)
              "sad" (90 / 100))
        (nodup string_dec ["happy"; "sad"; "sad"]) = Ok ws /\
      assoc "sad" ws = Some s /\ s == 63 # 100 /\
      assoc "happy" ws = Some h /\ h == 27 # 100) /\
  (exists r s h,
      fuse_results (nodup string_dec)
        example_text example_video example_audio None = Ok r /\
      dominant_emotion r = "sad" /\
      assoc "sad" (emotion_scores r) = Some s /\ s == 70 /\
      assoc "happy" (emotion_scores r) = Some h /\ h == 30 /\
      Permutation (keys (emotion_scores r)) ["sad"; "happy"]).
Proof.
  exact (fuse_happy_sad_sad (nodup string_dec) nodup_order_distinct
           example_text example_video example_audio
           (90 / 100) (9 / 10) (90 / 100)
           eq_refl eq_refl eq_refl eq_refl eq_refl eq_refl
           eq_refl eq_refl eq_refl).
Defined.

Lemma confidence_is_pre_rescale_score_witness :
  exists r,
    fuse_primary (nodup string_dec)
      example_text example_video example_audio None = Ok r /\
    confidence r ==
      round2 (weighted_score "happy" (90 / 100) "sad" (9 / 10) "sad" (90 / 100)
                (3 # 10) (4 # 10) (3 # 10) (dominant_emotion r) * 100) /\
    confidence r == 63 /\
    (exists s, assoc "sad" (emotion_scores r) = Some s /\ s == 70).
Proof.
  eexists. split; [reflexivity |]. split.
  - exact (confidence_is_pre_rescale_score (nodup string_dec)
             example_text example_video example_audio None
             "happy" "sad" "sad" (90 / 100) (9 / 10) (90 / 100)
             (3 # 10) (4 # 10) (3 # 10)
             eq_refl eq_refl eq_refl eq_refl eq_refl eq_refl
             eq_refl eq_refl eq_refl _ eq_refl).
  - split; [reflexivity |]. eexists. split; reflexivity.
Defined.

Lemma emotion_scores_sum_witness :
  exists r,
    fuse_primary (nodup string_dec)
      example_text example_video example_audio None = Ok r /\
    sum (values (emotion_scores r)) == 100 /\
    Qabs (sum (values (emotion_scores r)) - 100) <= 1 # 100.
Proof.
  eexists. split; [reflexivity |].
  exact (proj1 (emotion_scores_sum (nodup string_dec)
                  example_text example_video example_audio None
                  "happy" "sad" "sad" (90 / 100) (9 / 10) (90 / 100)
                  (3 # 10) (4 # 10) (3 # 10)
                  eq_refl eq_refl eq_refl eq_refl eq_refl eq_refl
                  eq_refl eq_refl eq_refl nodup_order_distinct _ eq_refl)
           eq_refl).
Defined.

Lemma fused_emotions_are_winners_witness :
  exists r te ve ae,
    fuse_results (nodup string_dec)
      example_text example_video example_audio None = Ok r /\
    winner example_text = Ok te /\
    winner example_video = Ok ve /\
    winner example_audio = Ok ae /\
    In (dominant_emotion r) [te; ve; ae] /\
    (forall k, In k (keys (emotion_scores r)) -> In k [te; ve; ae]).
Proof.
  eexists.
  destruct (fused_emotions_are_winners (nodup string_dec)
              example_text example_video example_audio None _
              nodup_order_distinct eq_refl)
    as (te & ve & ae & Hte & Hve & Hae & Hdom & Hkeys & _).
  exists te, ve, ae. repeat split; assumption.
Defined.

End FusionFacts.

(** ** Strings *)

Module PyStrFacts.

Import PyStr Notions.

Lemma to_lower_idempotent (c : ascii) : to_lower (to_lower c) = to_lower c.
Proof. destruct c as [[] [] [] [] [] [] [] []]; reflexivity. Qed.

Lemma is_space_to_lower (c : ascii) : is_space (to_lower c) = is_space c.
Proof. destruct c as [[] [] [] [] [] [] [] []]; reflexivity. Qed.

Lemma lower_idempotent (s : string) : lower (lower s) = lower s.
Proof.
  induction s as [| c s IH]; simpl; [reflexivity |].
  now rewrite to_lower_idempotent, IH.
Qed.

Lemma lstrip_lower (s : string) : lstrip (lower s) = lower (lstrip s).
Proof.
  induction s as [| c s IH]; simpl; [reflexivity |].
  rewrite is_space_to_lower. destruct (is_space c); [exact IH | reflexivity].
Qed.

Lemma rstrip_lower (s : string) : rstrip (lower s) = lower (rstrip s).
Proof.
  induction s as [| c s IH]; simpl; [reflexivity |].
  rewrite IH, is_space_to_lower.
  destruct (rstrip s); simpl; [destruct (is_space c) |]; reflexivity.
Qed.

Lemma strip_lower (s : string) : strip (lower s) = lower (strip s).
Proof. unfold strip. now rewrite lstrip_lower, rstrip_lower. Qed.

Lemma lstrip_headed (s : string) : headed (lstrip s).
Proof.
  induction s as [| c s IH]; simpl; [exact I |].
  destruct (is_space c) eqn:Hc; [exact IH | exact Hc].
Qed.

Lemma lstrip_of_headed (s : string) : headed s -> lstrip s = s.
Proof.
  destruct s as [| c s]; simpl; [reflexivity |]. now intros ->.
Qed.

Lemma rstrip_headed (s : string) : headed s -> headed (rstrip s).
Proof.
  destruct s as [| c s]; simpl; [trivial |]. intros Hc.
  destruct (rstrip s); [rewrite Hc |]; exact Hc.
Qed.

Lemma rstrip_idempotent (s : string) : rstrip (rstrip s) = rstrip s.
Proof.
  induction s as [| c s IH]; simpl; [reflexivity |].
  destruct (rstrip s) as [| c' r'] eqn:Hr.
  - destruct (is_space c) eqn:Hc; simpl; [reflexivity | now rewrite Hc].
  - change (rstrip (String c (String c' r')))
      with (match rstrip (String c' r') with
            | EmptyString =>
                if is_space c then EmptyString else String c EmptyString
            | r => String c r
            end).
    now rewrite IH.
Qed.

Lemma strip_idempotent (s : string) : strip (strip s) = strip s.
Proof.
  unfold strip.
  rewrite (lstrip_of_headed (rstrip (lstrip s))).
  - apply rstrip_idempotent.
  - apply rstrip_headed, lstrip_headed.
Qed.

End PyStrFacts.

(** ** The emotion vocabulary *)

Module NormalizeFacts.

Import MultimodalFusion Notions PyStrFacts.

Lemma folded_idempotent (s : string) : folded (folded s) = folded s.
Proof.
  unfold folded.
  now rewrite <- strip_lower, lower_idempotent, strip_idempotent.
Qed.

(** Every row of the table agrees with the row of its folded key, and its
    value is a canonical emotion that is its own row. *)
Lemma table_rows :
  forall k c, In (k, c) EMOTION_MAPPING ->
    get EMOTION_MAPPING (folded k) (folded k) = c /\
    In c canonical /\
    folded c = c /\ PyStr.lower c = c /\ PyStr.strip c = c /\
    get EMOTION_MAPPING c c = c.
Proof.
  assert (F : forallb (fun kc =>
                String.eqb (get EMOTION_MAPPING (folded (fst kc))
                                (folded (fst kc))) (snd kc) &&
                existsb (String.eqb (snd kc)) canonical &&
                String.eqb (folded (snd kc)) (snd kc) &&
                String.eqb (PyStr.lower (snd kc)) (snd kc) &&
                String.eqb (PyStr.strip (snd kc)) (snd kc) &&
                String.eqb (get EMOTION_MAPPING (snd kc) (snd kc)) (snd kc))
             EMOTION_MAPPING = true) by (vm_compute; reflexivity).
  intros k c H.
  pose proof (proj1 (forallb_forall _ _) F (k, c) H) as R. cbn [fst snd] in R.
  repeat (apply andb_prop in R; destruct R as [R ?]).
  repeat match goal with
         | E : String.eqb _ _ = true |- _ => apply String.eqb_eq in E
         end.
  repeat split; try assumption.
  match goal with
  | E : existsb _ _ = true |- _ =>
      apply existsb_exists in E; destruct E as (x & Hx & Ex);
      apply String.eqb_eq in Ex; now subst x
  end.
Qed.

Lemma normalize_folded (s : string) :
  normalize s = get EMOTION_MAPPING (folded s) (folded s).
Proof.
  unfold normalize. fold (folded s). unfold get at 1.
  destruct (assoc s EMOTION_MAPPING) as [c |] eqn:Hs; [| reflexivity].
  symmetry. apply (table_rows s c). now apply Extractors.assoc_In.
Qed.

(** X1. The normalizer depends on its argument only through the
    lower-cased and stripped label: the exact-spelling lookup never decides,
    so letter case and surrounding white space make no difference. *)
Theorem normalize_case_and_space_blind (s : string) :
  normalize s = get EMOTION_MAPPING (folded s) (folded s) /\
  normalize (PyStr.lower s) = normalize s /\
  normalize (PyStr.strip s) = normalize s /\
  (forall s', folded s' = folded s -> normalize s' = normalize s).
Proof.
  split; [apply normalize_folded |].
  assert (H : forall s', folded s' = folded s -> normalize s' = normalize s).
  { intros s' Hs. now rewrite !normalize_folded, Hs. }
  split; [| split; [| exact H]]; apply H; unfold folded.
  - now rewrite lower_idempotent.
  - now rewrite <- strip_lower, strip_idempotent.
Qed.

Lemma normalize_case_and_space_blind_witness :
  normalize "  ANGRY " = normalize "angry".
Proof.
  exact (proj2 (proj2 (proj2 (normalize_case_and_space_blind "angry")))
           "  ANGRY " eq_refl).
Defined.

Lemma normalize_cases (s : string) :
  (assoc (folded s) EMOTION_MAPPING = Some (normalize s) /\
   In (folded s, normalize s) EMOTION_MAPPING) \/
  (assoc (folded s) EMOTION_MAPPING = None /\ normalize s = folded s).
Proof.
  rewrite normalize_folded. unfold get.
  destruct (assoc (folded s) EMOTION_MAPPING) as [c |] eqn:Hs.
  - left. split; [reflexivity | now apply Extractors.assoc_In].
  - now right.
Qed.

(** X2. Normalizing twice is normalizing once. *)
Theorem normalize_idempotent (s : string) :
  normalize (normalize s) = normalize s.
Proof.
  destruct (normalize_cases s) as [[_ Hin] | [Hnone Hs]].
  - destruct (table_rows _ _ Hin) as (_ & _ & Hfold & _ & _ & Hrow).
    now rewrite normalize_folded, Hfold.
  - rewrite Hs, normalize_folded, folded_idempotent.
    unfold get. now rewrite Hnone.
Qed.

Lemma normalized_form (s : string) :
  (In (normalize s) canonical \/
   (normalize s = folded s /\ assoc (folded s) EMOTION_MAPPING = None)) /\
  PyStr.lower (normalize s) = normalize s /\
  PyStr.strip (normalize s) = normalize s.
Proof.
  destruct (normalize_cases s) as [[_ Hin] | [Hnone Hs]].
  - destruct (table_rows _ _ Hin) as (_ & Hcan & _ & Hlow & Hstrip & _).
    repeat split; [now left | assumption | assumption].
  - split; [right; now split |]. rewrite Hs. unfold folded. split.
    + now rewrite <- strip_lower, lower_idempotent.
    + apply strip_idempotent.
Qed.

(** X3. A normalized label is one of the eight canonical emotions, or it is
    the lower-cased and stripped input when the table has no row for it; in
    both cases it contains no upper-case letter and no surrounding white
    space. *)
Theorem normalize_shape (s : string) :
  (In (normalize s) canonical \/
   (normalize s = folded s /\ assoc (folded s) EMOTION_MAPPING = None)) /\
  PyStr.lower (normalize s) = normalize s /\
  PyStr.strip (normalize s) = normalize s.
Proof. exact (normalized_form s). Qed.

Lemma normalize_fixed (s : string) : normalize (normalize s) = normalize s.
Proof.
  destruct (normalize_cases s) as [[_ Hin] | [Hnone Hs]].
  - destruct (table_rows _ _ Hin) as (_ & _ & Hfold & _ & _ & Hrow).
    now rewrite normalize_folded, Hfold.
  - rewrite Hs, normalize_folded, folded_idempotent.
    unfold get. now rewrite Hnone.
Qed.

End NormalizeFacts.

(** ** More on the weighted fusion core *)

Module FusionMore.

Import MultimodalFusion Stated Notions FusionFacts.

Lemma all_numbers_In (d : dict) (k : string) (v : value) :
  all_numbers d = true -> In (k, v) d -> exists x, v = VNum x.
Proof.
  intros Hd Hin. unfold all_numbers in Hd.
  pose proof (proj1 (forallb_forall _ _) Hd (k, v) Hin) as Hv. simpl in Hv.
  destruct v; try discriminate. now eexists.
Qed.

Lemma get_confidence_returns (result : dict) (target : string) :
  scores_well_formed result = true ->
  exists q, _get_confidence result target = Ok q.
Proof.
  unfold scores_well_formed, _get_confidence, mem, getitem.
  destruct (get result "confidence_scores" (VDict [])) as [| | | d];
    try discriminate.
  intros Hd. destruct (assoc target d) as [v |] eqn:Hv.
  - destruct (all_numbers_In d target v Hd (Extractors.assoc_In _ _ _ Hv))
      as (x & ->).
    now eexists.
  - now eexists.
Qed.







(** *** The winner of the vote *)

Lemma max_from_greatest (g : string -> Q) (l : list string) (b : string) :
  forall e, In e (b :: l) ->
            g e <= g (max_from Qltb (b, g b) (map (fun x => (x, g x)) l)).
Proof.
  revert b. induction l as [| x l IH]; intros b e Hin.
  - destruct Hin as [<- | []]. simpl. apply Qle_refl.
  - cbn [map max_from fst snd].
    destruct (Qltb (g b) (g x)) eqn:Hlt.
    + apply Qltb_true in Hlt.
      destruct Hin as [<- | Hin].
      * apply Qle_trans with (g x); [now apply Qlt_le_weak |].
        apply IH. now left.
      * now apply IH.
    + apply Qltb_false in Hlt.
      destruct Hin as [<- | [<- | Hin]].
      * apply IH. now left.
      * apply Qle_trans with (g b); [assumption |]. apply IH. now left.
      * apply IH. now right.
Qed.

Lemma assoc_percentages (total : Q) (ws : list (string * Q)) (e : string) :
  assoc e (percentages total ws) =
  option_map (fun x => x / total * 100) (assoc e ws).
Proof.
  induction ws as [| [k x] ws IH]; simpl; [reflexivity |].
  destruct (String.eqb e k); [reflexivity | exact IH].
Qed.

Section Primary.

Variable set_order : list string -> list string.
Variables (t v a : dict) (w : option dict).
Variables (te ve ae : string) (tc vc ac wt wv wa : Q).

Hypothesis Hte : winner t = Ok te.
Hypothesis Hve : winner v = Ok ve.
Hypothesis Hae : winner a = Ok ae.
Hypothesis Htc : _get_confidence t te = Ok tc.
Hypothesis Hvc : _get_video_confidence v ve = Ok vc.
Hypothesis Hac : _get_confidence a ae = Ok ac.
Hypothesis Hwt : getitem (weights_or_default w) "text" = Ok (VNum wt).
Hypothesis Hwv : getitem (weights_or_default w) "video" = Ok (VNum wv).
Hypothesis Hwa : getitem (weights_or_default w) "audio" = Ok (VNum wa).
Hypothesis Hadm : admissible set_order.

Let score : string -> Q := tally te tc ve vc ae ac wt wv wa.
Let wscore : string -> Q := weighted_score te tc ve vc ae ac wt wv wa.
Let total : Q := tc * wt + vc * wv + ac * wa.

Lemma primary_shape (r : FusedResult) :
  fuse_primary set_order t v a w = Ok r ->
  exists e0 rest,
    set_order [te; ve; ae] = e0 :: rest /\
    r = primary_answer te tc ve vc ae ac wt wv wa e0 rest.
Proof.
  exact (fuse_primary_cases set_order t v a w te ve ae tc vc ac wt wv wa
           Hte Hve Hae Htc Hvc Hac Hwt Hwv Hwa r).
Qed.

Lemma score_is_greatest (r : FusedResult) :
  fuse_primary set_order t v a w = Ok r ->
  forall e, In e [te; ve; ae] -> wscore e <= wscore (dominant_emotion r).
Proof.
  intros Hr e He.
  destruct (primary_shape r Hr) as (e0 & rest & Horder & ->).
  unfold primary_answer. cbn [dominant_emotion].
  apply (set_order_In set_order Hadm) in He. rewrite Horder in He.
  unfold wscore. rewrite <- !tally_weighted_score.
  now apply (max_from_greatest (tally te tc ve vc ae ac wt wv wa)).
Qed.

(** X5. On the primary path no modality's winner has a larger weighted
    score than the dominant emotion. *)
Theorem dominant_has_greatest_score (r : FusedResult) :
  fuse_primary set_order t v a w = Ok r ->
  forall e, In e [te; ve; ae] -> wscore e <= wscore (dominant_emotion r).
Proof. exact (score_is_greatest r). Qed.

Lemma scores_closed_form (r : FusedResult) :
  fuse_primary set_order t v a w = Ok r ->
  forall e, In e [te; ve; ae] ->
  exists x,
    assoc e (emotion_scores r) = Some x /\
    (0 < total -> x == wscore e / total * 100) /\
    (total <= 0 -> x == wscore e).
Proof.
  intros Hr e He.
  destruct (primary_shape r Hr) as (e0 & rest & Horder & ->).
  unfold primary_answer. cbn [emotion_scores].
  rewrite <- Horder, values_map_self.
  apply (set_order_In set_order Hadm) in He.
  pose proof (total_score_contributions set_order te ve ae tc vc ac wt wv wa
                Hadm) as Htotal.
  fold total in Htotal.
  set (code_total := sum (map (tally te tc ve vc ae ac wt wv wa)
                              (set_order [te; ve; ae]))) in *.
  destruct (Qltb 0 code_total) eqn:Hpos.
  - apply Qltb_true in Hpos.
    rewrite assoc_percentages, (assoc_map_self _ _ e He). simpl.
    eexists. split; [reflexivity |]. split.
    + intros _. unfold wscore.
      now rewrite Htotal, tally_weighted_score.
    + intros Hle. rewrite Htotal in Hpos. lra.
  - apply Qltb_false in Hpos.
    rewrite (assoc_map_self _ _ e He).
    eexists. split; [reflexivity |]. split.
    + intros Hlt. rewrite Htotal in Hpos. lra.
    + intros _. unfold wscore. apply tally_weighted_score.
Qed.


Lemma assoc_key {V : Type} (e : string) (d : list (string * V)) (x : V) :
  assoc e d = Some x -> In e (keys d).
Proof.
  induction d as [| [k y] d IH]; simpl; [discriminate |].
  destruct (String.eqb_spec e k) as [-> | _]; [now left | right; auto].
Qed.

Lemma scored_is_winner (r : FusedResult) (e : string) (x : Q) :
  fuse_primary set_order t v a w = Ok r ->
  assoc e (emotion_scores r) = Some x -> In e [te; ve; ae].
Proof.
  intros Hr Hx.
  destruct (fuse_primary_inv _ _ _ _ _ _ Hr)
    as (te' & ve' & ae' & Hte' & Hve' & Hae' & Hkeys & _).
  rewrite Hte in Hte'. rewrite Hve in Hve'. rewrite Hae in Hae'.
  injection Hte' as <-. injection Hve' as <-. injection Hae' as <-.
  apply assoc_key in Hx. rewrite Hkeys in Hx.
  exact (proj1 (set_order_In set_order Hadm _ _) Hx).
Qed.

(** X7. When the three modalities agree, the agreed emotion is the dominant
    one and the only key of [emotion_scores], at 100 when the total score
    is positive. *)
Theorem unanimous_vote (r : FusedResult) :
  ve = te -> ae = te ->
  fuse_primary set_order t v a w = Ok r ->
  dominant_emotion r = te /\
  exists x, emotion_scores r = [(te, x)] /\ (0 < total -> x == 100).
Proof.
  intros Ev Ea Hr.
  destruct (scores_closed_form r Hr te) as (x & Hx & Hpos & _);
    [now left |].
  destruct (primary_shape r Hr) as (e0 & rest & Horder & Hshape).
  assert (Hone : set_order [te; ve; ae] = [te]).
  { apply Permutation_length_1_inv, Permutation_sym.
    replace [te] with (nodup string_dec [te; ve; ae]); [apply Hadm |].
    subst ve ae. simpl.
    destruct (string_dec te te) as [_ | Hne]; [| now elim Hne].
    reflexivity. }
  rewrite Hone in Horder. injection Horder as <- <-.
  subst r. unfold primary_answer in *. cbn [dominant_emotion emotion_scores] in *.
  split; [reflexivity |].
  cbn [map max_from fst] in *.
  destruct (Qltb 0 _) in *; cbn [percentages map fst snd assoc] in *;
    rewrite String.eqb_refl in Hx; injection Hx as <-;
    (eexists; split; [reflexivity |]);
    intros Hlt; rewrite (Hpos Hlt); unfold wscore, weighted_score, total;
    subst ve ae; rewrite String.eqb_refl; field; unfold total in Hlt; lra.
Qed.

(** X8. With confidences and weights that are not negative, every entry of
    [emotion_scores] on the primary path lies between 0 and 100. *)
Theorem emotion_scores_are_percentages (r : FusedResult) :
  0 <= tc -> 0 <= vc -> 0 <= ac -> 0 <= wt -> 0 <= wv -> 0 <= wa ->
  fuse_primary set_order t v a w = Ok r ->
  forall e x, assoc e (emotion_scores r) = Some x -> 0 <= x <= 100.
Proof.
  intros Ptc Pvc Pac Pwt Pwv Pwa Hr e x Hx.
  pose proof (scored_is_winner r e x Hr Hx) as He.
  destruct (scores_closed_form r Hr e He) as (x' & Hx' & Hpos & Hzero).
  rewrite Hx in Hx'. injection Hx' as <-.
  assert (P1 : 0 <= tc * wt) by now apply Qmult_le_0_compat.
  assert (P2 : 0 <= vc * wv) by now apply Qmult_le_0_compat.
  assert (P3 : 0 <= ac * wa) by now apply Qmult_le_0_compat.
  assert (Hw : 0 <= wscore e <= total).
  { unfold wscore, weighted_score, total.
    set (p1 := tc * wt) in *. set (p2 := vc * wv) in *.
    set (p3 := ac * wa) in *.
    destruct (String.eqb e te), (String.eqb e ve), (String.eqb e ae); lra. }
  destruct (Qlt_le_dec 0 total) as [Hlt | Hle].
  - rewrite (Hpos Hlt).
    assert (Hq : 0 <= wscore e / total <= 1).
    { split.
      - apply Qle_shift_div_l; [assumption | lra].
      - apply Qle_shift_div_r; [assumption | lra]. }
    set (q := wscore e / total) in *. lra.
  - rewrite (Hzero Hle). lra.
Qed.

End Primary.

(** *** The iteration order of the set *)

Section TwoOrders.

Variables order1 order2 : list string -> list string.
Variables (t v a : dict) (w : option dict).
Variables (te ve ae : string) (tc vc ac wt wv wa : Q).

Hypothesis Hte : winner t = Ok te.
Hypothesis Hve : winner v = Ok ve.
Hypothesis Hae : winner a = Ok ae.
Hypothesis Htc : _get_confidence t te = Ok tc.
Hypothesis Hvc : _get_video_confidence v ve = Ok vc.
Hypothesis Hac : _get_confidence a ae = Ok ac.
Hypothesis Hwt : getitem (weights_or_default w) "text" = Ok (VNum wt).
Hypothesis Hwv : getitem (weights_or_default w) "video" = Ok (VNum wv).
Hypothesis Hwa : getitem (weights_or_default w) "audio" = Ok (VNum wa).
Hypothesis Hadm1 : admissible order1.
Hypothesis Hadm2 : admissible order2.

Let wscore : string -> Q := weighted_score te tc ve vc ae ac wt wv wa.


Lemma confidence_of_primary set_order (r : FusedResult) :
  fuse_primary set_order t v a w = Ok r ->
  confidence r == round2 (wscore (dominant_emotion r) * 100).
Proof.
  intros Hr.
  destruct (fuse_primary_cases set_order t v a w te ve ae tc vc ac wt wv wa
              Hte Hve Hae Htc Hvc Hac Hwt Hwv Hwa r Hr)
    as (e0 & rest & _ & ->).
  unfold primary_answer. cbn [confidence dominant_emotion].
  apply round2_comp. unfold wscore. now rewrite tally_weighted_score.
Qed.


End TwoOrders.

Lemma reversed_order_admissible : admissible reversed_order.
Proof.
  intros l. unfold reversed_order. apply Permutation_sym, Permutation_rev.
Defined.

(** X10. On a tie the dominant emotion depends on the iteration order of
    the set: there are results, here with happy and sad tied at 0.15 under
    the default weights, for which two iteration orders make [fuse_results]
    name different dominant emotions. *)
Theorem tie_follows_iteration_order :
  exists (order1 order2 : list string -> list string) (r1 r2 : FusedResult),
    admissible order1 /\ admissible order2 /\
    fuse_results order1 tie_text tie_video tie_audio None = Ok r1 /\
    fuse_results order2 tie_text tie_video tie_audio None = Ok r2 /\
    dominant_emotion r1 = "happy" /\ dominant_emotion r2 = "sad" /\
    confidence r1 == confidence r2.
Proof.
  exists (nodup string_dec), reversed_order. do 2 eexists.
  split; [exact nodup_order_distinct |].
  split; [exact reversed_order_admissible |].
  split; [reflexivity |]. split; [reflexivity |].
  repeat split.
Qed.

(** *** The theorems above on the worked example *)

Lemma dominant_has_greatest_score_witness :
  exists r,
    fuse_primary (nodup string_dec)
      example_text example_video example_audio None = Ok r /\
    weighted_score "happy" (90 / 100) "sad" (9 / 10) "sad" (90 / 100)
      (3 # 10) (4 # 10) (3 # 10) "happy" <=
    weighted_score "happy" (90 / 100) "sad" (9 / 10) "sad" (90 / 100)
      (3 # 10) (4 # 10) (3 # 10) (dominant_emotion r).
Proof.
  eexists. split; [reflexivity |].
  refine (dominant_has_greatest_score (nodup string_dec)
            example_text example_video example_audio None
            "happy" "sad" "sad" (90 / 100) (9 / 10) (90 / 100)
            (3 # 10) (4 # 10) (3 # 10)
            eq_refl eq_refl eq_refl eq_refl eq_refl eq_refl
            eq_refl eq_refl eq_refl nodup_order_distinct _ eq_refl
            "happy" _).
  now left.
Defined.


Lemma unanimous_vote_witness :
  exists r x,
    fuse_primary (nodup string_dec)
      example_audio example_video example_audio None = Ok r /\
    dominant_emotion r = "sad" /\
    emotion_scores r = [("sad", x)] /\ x == 100.
Proof.
  eexists.
  destruct (unanimous_vote (nodup string_dec)
              example_audio example_video example_audio None
              "sad" "sad" "sad" (90 / 100) (9 / 10) (90 / 100)
              (3 # 10) (4 # 10) (3 # 10)
              eq_refl eq_refl eq_refl eq_refl eq_refl eq_refl
              eq_refl eq_refl eq_refl nodup_order_distinct _
              eq_refl eq_refl eq_refl)
    as (Hdom & x & Hx & Hpos).
  exists x. split; [reflexivity |]. split; [exact Hdom |].
  split; [exact Hx |]. apply Hpos. reflexivity.
Defined.

Lemma emotion_scores_are_percentages_witness :
  exists r,
    fuse_primary (nodup string_dec)
      example_text example_video example_audio None = Ok r /\
    forall e x, assoc e (emotion_scores r) = Some x -> 0 <= x <= 100.
Proof.
  eexists. split; [reflexivity |].
  refine (emotion_scores_are_percentages (nodup string_dec)
            example_text example_video example_audio None
            "happy" "sad" "sad" (90 / 100) (9 / 10) (90 / 100)
            (3 # 10) (4 # 10) (3 # 10)
            eq_refl eq_refl eq_refl eq_refl eq_refl eq_refl
            eq_refl eq_refl eq_refl nodup_order_distinct _
            _ _ _ _ _ _ eq_refl); discriminate.
Defined.


End FusionMore.

(** ** More on the mood mapper *)

Module MoodMore.

Import GeminiChat PyStrFacts.










End MoodMore.

(** ** The video identifier *)

Module VideoIdFacts.

Import YouTubeProcessor Notions.

Lemma append_assoc (a b c : string) :
  append (append a b) c = append a (append b c).
Proof. induction a as [| x a IH]; simpl; [reflexivity | now rewrite IH]. Qed.

Lemma prefix_split (p s : string) :
  prefix p s = true -> s = append p (skip (String.length p) s).
Proof.
  revert s. induction p as [| x p IH]; intros s; [reflexivity |].
  destruct s as [| y s]; simpl; [discriminate |].
  destruct (ascii_dec x y) as [-> | _]; [| discriminate].
  intros H. f_equal. now apply IH.
Qed.

Lemma prefix_append (p r : string) : prefix p (append p r) = true.
Proof.
  induction p as [| x p IH]; simpl; [now destruct r |].
  destruct (ascii_dec x x) as [_ | Hne]; [exact IH | now elim Hne].
Qed.

Lemma skip_append (p r : string) : skip (String.length p) (append p r) = r.
Proof. induction p as [| x p IH]; simpl; [reflexivity | exact IH]. Qed.

Lemma id_chars_cons (c : ascii) (s : string) :
  id_chars (String c s) = id_char c && id_chars s.
Proof. reflexivity. Qed.

Lemma take_id_sound (n : nat) (s g : string) :
  take_id n s = Some g ->
  String.length g = n /\ id_chars g = true /\ exists post, s = append g post.
Proof.
  revert s g. induction n as [| n IH]; intros s g; simpl.
  - intros [= <-]. repeat split. now exists s.
  - destruct s as [| c s]; [discriminate |].
    destruct (id_char c) eqn:Hc; [| discriminate].
    destruct (take_id n s) as [g' |] eqn:Hg; [| discriminate].
    intros [= <-]. destruct (IH s g' Hg) as (Hlen & Hid & post & ->).
    simpl. rewrite Hlen, id_chars_cons, Hc, Hid. repeat split.
    now exists post.
Qed.

Lemma take_id_complete (g post : string) :
  id_chars g = true -> take_id (String.length g) (append g post) = Some g.
Proof.
  induction g as [| c g IH]; simpl; [reflexivity |].
  rewrite id_chars_cons. intros H. apply andb_prop in H as [Hc Hg].
  now rewrite Hc, (IH Hg).
Qed.

#[local] Arguments take_id : simpl never.

Lemma match_here_sound (alts : list string) (s g : string) :
  match_here alts s = Some g ->
  exists p rest, In p alts /\ s = append p rest /\ take_id 11 rest = Some g.
Proof.
  induction alts as [| p alts IH]; simpl; [discriminate |].
  destruct (prefix p s) eqn:Hp.
  - destruct (take_id 11 (skip (String.length p) s)) as [g' |] eqn:Hg.
    + intros [= <-]. exists p, (skip (String.length p) s).
      split; [now left |]. split; [now apply prefix_split | exact Hg].
    + intros H. destruct (IH H) as (p' & rest & Hin & Hs & Ht).
      exists p', rest. split; [now right | now split].
  - intros H. destruct (IH H) as (p' & rest & Hin & Hs & Ht).
    exists p', rest. split; [now right | now split].
Qed.

Lemma search_sound (alts : list string) (s g : string) :
  search alts s = Some g ->
  exists pre p rest,
    In p alts /\ s = append pre (append p rest) /\ take_id 11 rest = Some g.
Proof.
  induction s as [| c s IH]; simpl.
  - destruct (match_here alts EmptyString) as [g' |] eqn:Hm; [| discriminate].
    intros [= <-]. destruct (match_here_sound _ _ _ Hm) as (p & rest & H).
    now exists EmptyString, p, rest.
  - destruct (match_here alts (String c s)) as [g' |] eqn:Hm.
    + intros [= <-]. destruct (match_here_sound _ _ _ Hm) as (p & rest & H).
      now exists EmptyString, p, rest.
    + intros H. destruct (IH H) as (pre & p & rest & Hin & -> & Ht).
      now exists (String c pre), p, rest.
Qed.

Lemma match_here_complete (alts : list string) (p rest g : string) :
  In p alts -> take_id 11 rest = Some g ->
  match_here alts (append p rest) <> None.
Proof.
  intros Hin Hg. induction alts as [| q alts IH]; [destruct Hin |].
  cbn [match_here]. destruct Hin as [-> | Hin].
  - rewrite prefix_append, skip_append, Hg. discriminate.
  - destruct (prefix q (append p rest)); [| now apply IH].
    destruct (take_id 11 (skip (String.length q) (append p rest)));
      [discriminate | now apply IH].
Qed.

Lemma search_complete (alts : list string) (pre p rest g : string) :
  In p alts -> take_id 11 rest = Some g ->
  search alts (append pre (append p rest)) <> None.
Proof.
  intros Hin Hg. induction pre as [| c pre IH].
  - simpl append.
    pose proof (match_here_complete alts p rest g Hin Hg) as Hm.
    destruct (append p rest) as [| c s]; simpl;
      destruct (match_here alts _); try discriminate; now elim Hm.
  - simpl.
    destruct (match_here alts (String c (append pre (append p rest))));
      [discriminate | exact IH].
Qed.

(** A match of a pattern whose literals end like literals of another
    pattern is a match of the other pattern, possibly further left. *)
Lemma search_subsumed (alts alts' : list string) (s g : string) :
  (forall p, In p alts -> exists q p', In p' alts' /\ p = append q p') ->
  search alts s = Some g -> search alts' s <> None.
Proof.
  intros Hsub Hs.
  destruct (search_sound _ _ _ Hs) as (pre & p & rest & Hin & -> & Hg).
  destruct (Hsub p Hin) as (q & p' & Hin' & ->).
  rewrite append_assoc, <- (append_assoc pre q).
  now apply (search_complete alts' (append pre q) p' rest g).
Qed.

Lemma first_match_sound (ps : list (list string)) (url : string) :
  first_match ps url = "unknown" \/
  exists pre p rest,
    In p (List.concat ps) /\ url = append pre (append p rest) /\
    take_id 11 rest = Some (first_match ps url).
Proof.
  induction ps as [| alts ps IH]; simpl; [now left |].
  destruct (search alts url) as [g |] eqn:Hs.
  - right. destruct (search_sound _ _ _ Hs) as (pre & p & rest & Hin & H).
    exists pre, p, rest. split; [apply in_or_app; now left | exact H].
  - destruct IH as [IH | (pre & p & rest & Hin & H)]; [now left | right].
    exists pre, p, rest. split; [apply in_or_app; now right | exact H].
Qed.

(** X13. The video identifier is ["unknown"], or it is eleven characters
    that stand in the URL right after one of the patterns' literal texts;
    either way it consists of letters, digits, [_] and [-] only, so the file
    names and the clean-up pattern built from it contain no separator and
    no wildcard. *)
Theorem video_id_shape (url : string) :
  let id := _extract_video_id url in
  id_chars id = true /\
  (id = "unknown" \/
   (String.length id = 11%nat /\
    exists pre p post,
      In p literals /\ url = append pre (append p (append id post)))).
Proof.
  intros id. unfold id, _extract_video_id.
  destruct (first_match_sound patterns url)
    as [Hu | (pre & p & rest & Hin & Hurl & Hg)].
  - rewrite Hu. split; [reflexivity | now left].
  - destruct (take_id_sound _ _ _ Hg) as (Hlen & Hid & post & ->).
    split; [exact Hid |]. right. split; [exact Hlen |].
    now exists pre, p, post.
Qed.

Lemma fourth_pattern_subsumes (alts : list string) (url g : string) :
  In alts patterns -> search alts url = Some g ->
  search ["v="; "/"] url <> None.
Proof.
  intros Hin. apply search_subsumed. intros p Hp.
  assert (F : forallb (fun alts =>
                forallb (fun p =>
                  existsb (fun p' =>
                    String.eqb p
                      (append (substring 0 (String.length p - String.length p') p)
                              p'))
                    ["v="; "/"]) alts) patterns = true)
    by (vm_compute; reflexivity).
  pose proof (proj1 (forallb_forall _ _)
                (proj1 (forallb_forall _ _) F alts Hin) p Hp) as E.
  apply existsb_exists in E as (p' & Hp' & E).
  apply String.eqb_eq in E.
  exists (substring 0 (String.length p - String.length p') p), p'.
  now split.
Qed.

(** X14. The generic fourth pattern decides for the last two: a URL that
    the fifth or the sixth pattern fits is fitted by the fourth, so they are
    never reached, and the answer is ["unknown"] exactly when the URL has no
    [v=] and no slash followed by eleven identifier characters. *)
Theorem generic_pattern_decides (url : string) :
  _extract_video_id url = first_match (firstn 4 patterns) url /\
  (_extract_video_id url = "unknown" <-> search ["v="; "/"] url = None).
Proof.
  assert (Hnone : search ["v="; "/"] url = None ->
                  forall alts, In alts patterns -> search alts url = None).
  { intros H4 alts Hin. destruct (search alts url) as [g |] eqn:Hs;
      [| reflexivity].
    now elim (fourth_pattern_subsumes alts url g Hin Hs). }
  unfold _extract_video_id, patterns in *. cbn [firstn first_match].
  destruct (search ["v="; "/"] url) as [g4 |] eqn:H4.
  - split.
    + destruct (search ["youtube.com/shorts/"] url); [reflexivity |].
      destruct (search ["youtube.com/watch?v="] url); [reflexivity |].
      destruct (search ["youtu.be/"] url); reflexivity.
    + split; [| discriminate]. intros Hu. exfalso.
      assert (Hlen : forall alts g, search alts url = Some g -> g <> "unknown").
      { intros alts g Hs ->.
        destruct (search_sound _ _ _ Hs) as (_ & _ & rest & _ & _ & Hg).
        now destruct (take_id_sound _ _ _ Hg) as (Hl & _). }
      destruct (search ["youtube.com/shorts/"] url) as [g |] eqn:H1;
        [now apply (Hlen _ _ H1) |].
      destruct (search ["youtube.com/watch?v="] url) as [g |] eqn:H2;
        [now apply (Hlen _ _ H2) |].
      destruct (search ["youtu.be/"] url) as [g |] eqn:H3;
        [now apply (Hlen _ _ H3) |].
      now apply (Hlen _ _ H4).
  - rewrite !Hnone; simpl; auto 10.
    split; [reflexivity | split; reflexivity].
Qed.

Lemma no_slash_cons (c : ascii) (s : string) :
  no_slash (String c s) = negb (Ascii.eqb c "/") && no_slash s.
Proof. reflexivity. Qed.

Lemma no_slash_append (a b : string) :
  no_slash (append a b) = no_slash a && no_slash b.
Proof.
  induction a as [| c a IH]; [reflexivity |].
  simpl append. now rewrite !no_slash_cons, IH, andb_assoc.
Qed.

Lemma id_char_no_slash (c : ascii) :
  id_char c = true -> negb (Ascii.eqb c "/") = true.
Proof.
  destruct c as [[] [] [] [] [] [] [] []]; intros H;
    first [reflexivity | discriminate H].
Qed.

Lemma id_chars_no_slash (s : string) : id_chars s = true -> no_slash s = true.
Proof.
  induction s as [| c s IH]; [reflexivity |].
  rewrite id_chars_cons, no_slash_cons. intros H.
  apply andb_prop in H as [Hc Hs].
  now rewrite (id_char_no_slash c Hc), (IH Hs).
Qed.

(** A literal with a slash in it is found nowhere in a text without one. *)
Lemma search_without_slash (a b s : string) :
  no_slash s = true -> search [append a (String "/" b)] s = None.
Proof.
  assert (Hhere : forall s', no_slash s' = true ->
                    match_here [append a (String "/" b)] s' = None).
  { intros s' Hs'. cbn [match_here].
    destruct (prefix (append a (String "/" b)) s') eqn:Hp; [| reflexivity].
    apply prefix_split in Hp. rewrite Hp in Hs'.
    rewrite append_assoc, no_slash_append in Hs'. simpl append in Hs'.
    rewrite no_slash_cons in Hs'. simpl in Hs'.
    rewrite andb_false_r in Hs'. discriminate. }
  induction s as [| c s IH]; intros Hs; cbn [search]; rewrite (Hhere _ Hs).
  - reflexivity.
  - apply IH. rewrite no_slash_cons in Hs. now apply andb_prop in Hs as [_ Hs].
Qed.

Lemma clash_prefix (p pre tail : string) :
  clash p pre = true -> prefix p (append pre tail) = false.
Proof.
  revert pre. induction p as [| a p IH]; intros pre; [discriminate |].
  destruct pre as [| b pre]; [discriminate |]. simpl.
  destruct (Ascii.eqb_spec a b) as [-> | Hne].
  - destruct (ascii_dec b b) as [_ | Hbb]; [apply IH | reflexivity].
  - intros _. destruct (ascii_dec a b) as [Hab | _]; [contradiction |].
    reflexivity.
Qed.

Lemma match_here_miss (alts : list string) (pre tail : string) :
  forallb (fun p => clash p pre) alts = true ->
  match_here alts (append pre tail) = None.
Proof.
  induction alts as [| p alts IH]; [reflexivity |].
  cbn [forallb match_here]. intros H. apply andb_prop in H as [Hp Halts].
  now rewrite (clash_prefix p pre tail Hp), IH.
Qed.

(** The search passes over a beginning where nothing can match. *)
Lemma search_past (alts : list string) (pre tail : string) :
  miss_all alts pre = true ->
  search alts (append pre tail) = search alts tail.
Proof.
  induction pre as [| c pre IH]; [reflexivity |].
  cbn [miss_all]. intros H. apply andb_prop in H as [Hhere Hrest].
  change (append (String c pre) tail) with (String c (append pre tail)).
  cbn [search].
  change (String c (append pre tail)) with (append (String c pre) tail).
  now rewrite (match_here_miss alts (String c pre) tail Hhere), IH.
Qed.

Lemma search_hit (p rest g : string) :
  take_id 11 rest = Some g -> search [p] (append p rest) = Some g.
Proof.
  intros Hg.
  assert (Hm : match_here [p] (append p rest) = Some g)
    by (cbn [match_here]; now rewrite prefix_append, skip_append, Hg).
  destruct (append p rest); cbn [search]; now rewrite Hm.
Qed.

(** X15. For the three usual forms of a video address, with an identifier
    of eleven identifier characters and no slash after it, the identifier
    is what [_extract_video_id] returns. *)
Theorem usual_urls (id rest : string) :
  String.length id = 11%nat ->
  id_chars id = true ->
  no_slash rest = true ->
  _extract_video_id
    (append "https://www.youtube.com/watch?v=" (append id rest)) = id /\
  _extract_video_id (append "https://youtu.be/" (append id rest)) = id /\
  _extract_video_id
    (append "https://www.youtube.com/shorts/" (append id rest)) = id.
Proof.
  intros Hlen Hid Hrest.
  set (tail := append id rest).
  assert (Htail : no_slash tail = true)
    by (unfold tail;
        rewrite no_slash_append, (id_chars_no_slash id Hid), Hrest;
        reflexivity).
  assert (Htake : take_id 11 tail = Some id)
    by (unfold tail; rewrite <- Hlen; now apply take_id_complete).
  pose proof (search_without_slash "youtube.com" "shorts/" _ Htail) as S1.
  pose proof (search_without_slash "youtube.com" "watch?v=" _ Htail) as S2.
  cbn [append] in S1, S2.
  unfold _extract_video_id, patterns. cbn [first_match].
  split; [| split].
  - rewrite (search_past ["youtube.com/shorts/"]
               "https://www.youtube.com/watch?v=" tail eq_refl), S1.
    change (append "https://www.youtube.com/watch?v=" tail)
      with (append "https://www." (append "youtube.com/watch?v=" tail)).
    rewrite (search_past ["youtube.com/watch?v="] "https://www." _ eq_refl).
    now rewrite (search_hit "youtube.com/watch?v=" tail id Htake).
  - rewrite (search_past ["youtube.com/shorts/"]
               "https://youtu.be/" tail eq_refl), S1.
    rewrite (search_past ["youtube.com/watch?v="]
               "https://youtu.be/" tail eq_refl), S2.
    change (append "https://youtu.be/" tail)
      with (append "https://" (append "youtu.be/" tail)).
    rewrite (search_past ["youtu.be/"] "https://" _ eq_refl).
    now rewrite (search_hit "youtu.be/" tail id Htake).
  - change (append "https://www.youtube.com/shorts/" tail)
      with (append "https://www." (append "youtube.com/shorts/" tail)).
    rewrite (search_past ["youtube.com/shorts/"] "https://www." _ eq_refl).
    now rewrite (search_hit "youtube.com/shorts/" tail id Htake).
Qed.

Lemma usual_urls_witness :
  _extract_video_id "https://www.youtube.com/watch?v=dQw4w9WgXcQ&t=43s" =
    "dQw4w9WgXcQ" /\
  _extract_video_id "https://youtu.be/dQw4w9WgXcQ&t=43s" = "dQw4w9WgXcQ" /\
  _extract_video_id "https://www.youtube.com/shorts/dQw4w9WgXcQ&t=43s" =
    "dQw4w9WgXcQ".
Proof.
  exact (usual_urls "dQw4w9WgXcQ" "&t=43s" eq_refl eq_refl eq_refl).
Defined.

End VideoIdFacts.

(** ** The text analyzer *)

Module AnalyzerFacts.

Import MultimodalFusion TextSentimentAnalyzer Notions FusionFacts.

Lemma assoc_setitem_same (d : dict) (k : string) (v : value) :
  assoc k (setitem d k v) = Some v.
Proof.
  induction d as [| [k' v'] d IH]; simpl.
  - now rewrite String.eqb_refl.
  - destruct (String.eqb k k') eqn:E; simpl; rewrite E; [reflexivity | exact IH].
Qed.

Lemma assoc_setitem_other (d : dict) (k k' : string) (v : value) :
  k' <> k -> assoc k' (setitem d k v) = assoc k' d.
Proof.
  intros Hne. induction d as [| [k0 v0] d IH]; simpl.
  - now rewrite (proj2 (String.eqb_neq k' k) Hne).
  - destruct (String.eqb_spec k k0) as [-> | Hk]; simpl.
    + now rewrite (proj2 (String.eqb_neq k' k0) Hne).
    + now rewrite IH.
Qed.

Lemma all_numbers_setitem (d : dict) (k : string) (x : Q) :
  all_numbers d = true -> all_numbers (setitem d k (VNum x)) = true.
Proof.
  unfold all_numbers.
  induction d as [| [k' v'] d IH]; simpl; [reflexivity |].
  intros H. apply andb_prop in H as [Hv Hd].
  destruct (String.eqb k k'); simpl.
  - exact Hd.
  - now rewrite Hv, IH.
Qed.

Lemma assoc_map_none {V : Type} (g : string -> V) (l : list string) (e : string) :
  ~ In e l -> assoc e (map (fun x => (x, g x)) l) = None.
Proof.
  induction l as [| x l IH]; simpl; [reflexivity |].
  intros Hnot. destruct (String.eqb_spec e x) as [-> | _].
  - elim Hnot. now left.
  - apply IH. intros Hin. apply Hnot. now right.
Qed.

Section Analyze.

Variable generate_content : string -> string -> outcome value.
Variable json_loads : string -> option value.
Variable float_of_str : string -> outcome Q.
Variable describe : exn -> string.

Let analyze : value -> dict :=
  analyze_sentiment generate_content json_loads float_of_str describe.

(** What [interpret] builds when it succeeds. *)
Lemma interpret_answer (result : value) (answer : dict) :
  interpret float_of_str result = Ok answer ->
  exists d label c,
    result = VDict d /\
    get d "dominant_emotion" (VStr "neutral") = VStr label /\
    to_float float_of_str (get d "confidence" (VNum (1 # 2))) = Ok c /\
    answer =
      [ ("dominant_emotion", VStr (PyStr.lower label));
        ("confidence_scores",
         VDict (setitem (map (fun e => (e, VNum 0)) emotion_names)
                        (PyStr.lower label) (VNum (c * 100))));
        ("reasoning", get d "reasoning" (VStr "")) ].
Proof.
  unfold interpret. intros H.
  destruct result as [| | | d]; try discriminate H.
  cbn [get_of bind] in H.
  destruct (get d "dominant_emotion" (VStr "neutral")) as [| label | |] eqn:Hl;
    try discriminate H.
  cbn [lower_of bind] in H.
  destruct (to_float float_of_str (get d "confidence" (VNum (1 # 2))))
    as [c | e] eqn:Hc; [| discriminate H].
  cbn [bind] in H. injection H as <-.
  now exists d, label, c.
Qed.

(** The answer is one of the early ones, or it is built by [interpret]. *)
Lemma analyze_cases (text : value) :
  (exists reasoning, analyze text = neutral_result reasoning) \/
  (exists result, interpret float_of_str result = Ok (analyze text)).
Proof.
  unfold analyze, analyze_sentiment.
  destruct (falsy text); [left; now eexists |].
  destruct text as [| s | |]; try (left; now eexists).
  destruct (String.length (PyStr.strip s) <? 10)%nat; [left; now eexists |].
  unfold ask.
  destruct (generate_content _ _) as [response |]; [| left; now eexists].
  destruct (strip_of response) as [response_text |]; [| left; now eexists].
  destruct (json_loads _) as [result |]; [| left; now eexists].
  destruct (interpret float_of_str result) as [answer |] eqn:Hi;
    [| left; now eexists].
  right. now exists result.
Qed.

(** X16. Whatever the text is, whatever the model answers or raises (short
    of a [JSONDecodeError] of its own) and whatever the parser makes of it,
    the analyzer's answer has a string label, a score map of numbers, and a
    score for that label; so fusion finds the text modality's winner and its
    confidence without an exception. *)
Theorem analyzer_answer_is_usable (text : value) :
  usable_text_result (analyze text) /\
  exists e q,
    winner (analyze text) = Ok e /\ _get_confidence (analyze text) e = Ok q.
Proof.
  assert (Husable : usable_text_result (analyze text)).
  { destruct (analyze_cases text) as [(reasoning & ->) | (result & Hi)].
    - exists "neutral", [("neutral", VNum 100)], 100. now repeat split.
    - destruct (interpret_answer _ _ Hi) as (d & label & c & _ & _ & _ & ->).
      eexists _, _, _. split; [reflexivity |]. split; [reflexivity |]. split.
      + now apply all_numbers_setitem.
      + apply assoc_setitem_same. }
  split; [exact Husable |].
  destruct Husable as (label & d & x & Hl & Hd & Hnum & _).
  exists (normalize label).
  destruct (FusionMore.get_confidence_returns (analyze text) (normalize label))
    as (q & Hq).
  - unfold scores_well_formed. now rewrite Hd.
  - exists q. split; [| exact Hq]. unfold winner. now rewrite Hl.
Qed.

Section Answered.

Variables (s raw : string) (d : dict) (label : string) (c : Q).

Hypothesis Hlong : (10 <= String.length (PyStr.strip s))%nat.
Hypothesis Hmodel :
  generate_content "gemini-2.0-flash-exp" (prompt s) = Ok (VStr raw).
Hypothesis Hjson : json_loads (json_text (PyStr.strip raw)) = Some (VDict d).
Hypothesis Hlabel : get d "dominant_emotion" (VStr "neutral") = VStr label.
Hypothesis Hconfidence :
  to_float float_of_str (get d "confidence" (VNum (1 # 2))) = Ok c.

Let emotion : string := PyStr.lower label.

Lemma analyze_answered :
  analyze (VStr s) =
    [ ("dominant_emotion", VStr emotion);
      ("confidence_scores",
       VDict (setitem (map (fun e => (e, VNum 0)) emotion_names)
                      emotion (VNum (c * 100))));
      ("reasoning", get d "reasoning" (VStr "")) ].
Proof.
  unfold analyze, analyze_sentiment.
  assert (Hs : falsy (VStr s) = false).
  { destruct s; [simpl in Hlong; lia | reflexivity]. }
  rewrite Hs.
  rewrite (proj2 (Nat.ltb_ge _ _) Hlong).
  unfold ask. rewrite Hmodel. cbn [strip_of].
  fold (json_text (PyStr.strip raw)). rewrite Hjson.
  unfold interpret. cbn [get_of bind]. rewrite Hlabel. cbn [lower_of bind].
  rewrite Hconfidence. reflexivity.
Qed.

(** X17. When the model's answer parses, fusion takes the normalized label
    as the text modality's winner and reads its confidence from the score
    map: for a label that is its own normalization the reported confidence
    comes back unchanged; for a label that normalizes to another of the
    eight scored emotions (a synonym, or padded with blanks) fusion reads
    that emotion's zero and the reported confidence is lost; for any other
    label it reads the default 0.5. *)
Theorem analyzer_confidence_in_fusion :
  winner (analyze (VStr s)) = Ok (normalize emotion) /\
  (normalize emotion = emotion ->
   exists q,
     _get_confidence (analyze (VStr s)) (normalize emotion) = Ok q /\ q == c) /\
  (normalize emotion <> emotion -> In (normalize emotion) emotion_names ->
   exists q,
     _get_confidence (analyze (VStr s)) (normalize emotion) = Ok q /\ q == 0) /\
  (normalize emotion <> emotion -> ~ In (normalize emotion) emotion_names ->
   _get_confidence (analyze (VStr s)) (normalize emotion) = Ok (1 # 2)).
Proof.
  rewrite analyze_answered.
  split; [reflexivity |].
  unfold _get_confidence, mem, getitem.
  change (get _ "confidence_scores" (VDict []))
    with (VDict (setitem (map (fun e => (e, VNum 0)) emotion_names)
                         emotion (VNum (c * 100)))).
  cbv beta iota.
  split; [| split].
  - intros ->. rewrite assoc_setitem_same. cbn [bind as_number].
    eexists. split; [reflexivity |]. field.
  - intros Hne Hin. rewrite (assoc_setitem_other _ _ _ _ Hne).
    rewrite (assoc_map_self (fun _ => VNum 0) _ _ Hin). cbn [bind as_number].
    eexists. split; [reflexivity |]. reflexivity.
  - intros Hne Hnot. rewrite (assoc_setitem_other _ _ _ _ Hne).
    now rewrite (assoc_map_none (fun _ => VNum 0) _ _ Hnot).
Qed.

End Answered.

End Analyze.

Lemma analyzer_confidence_in_fusion_witness :
  let analyze :=
    analyze_sentiment
      (fun _ _ => Ok (VStr "Here it is: {...} "))
      (fun _ => Some (VDict [("dominant_emotion", VStr "Fearful");
                             ("confidence", VNum (85 # 100))]))
      (fun _ => Raise ValueError)
      (fun _ => "") in
  winner (analyze (VStr "a text that is long enough")) = Ok "fear" /\
  exists q,
    _get_confidence (analyze (VStr "a text that is long enough")) "fear"
      = Ok q /\ q == 0.
Proof.
  intros analyze.
  destruct (analyzer_confidence_in_fusion
              (fun _ _ => Ok (VStr "Here it is: {...} "))
              (fun _ => Some (VDict [("dominant_emotion", VStr "Fearful");
                                     ("confidence", VNum (85 # 100))]))
              (fun _ => Raise ValueError)
              (fun _ => "")
              "a text that is long enough" "Here it is: {...} "
              [("dominant_emotion", VStr "Fearful");
               ("confidence", VNum (85 # 100))]
              "Fearful" (85 # 100)
              (proj1 (Nat.leb_le 10
                        (String.length
                           (PyStr.strip "a text that is long enough")))
                     eq_refl)
              eq_refl eq_refl eq_refl eq_refl)
    as (Hw & _ & Hlost & _).
  split; [exact Hw |].
  apply Hlost; [discriminate |].
  right. right. right. now left.
Defined.

(** *** The brace pattern *)

Lemma no_close_cons (c : ascii) (s : string) :
  no_close (String c s) = negb (Ascii.eqb c "}") && no_close s.
Proof. reflexivity. Qed.

Lemma up_to_close_sound (s m : string) :
  up_to_close s = Some m ->
  exists body post,
    s = append body (String "}" post) /\
    m = append body "}" /\
    no_close body = true.
Proof.
  revert m. induction s as [| c s IH]; intros m; simpl; [discriminate |].
  destruct (Ascii.eqb_spec c "}") as [-> | Hc].
  - intros [= <-]. now exists EmptyString, s.
  - destruct (up_to_close s) as [m' |]; [| discriminate].
    intros [= <-]. destruct (IH m' eq_refl) as (body & post & -> & -> & Hb).
    exists (String c body), post. repeat split.
    rewrite no_close_cons, Hb.
    now rewrite (proj2 (Ascii.eqb_neq c "}") Hc).
Qed.

(** X18. What the brace pattern hands to the JSON parser is a piece of the
    response that opens with a brace, closes with the first closing brace
    after it and has at least one character in between; it never reaches
    past a closing brace, so an answer with a nested object is cut at the
    end of the inner object. *)
Theorem search_json_shape (s m : string) :
  search_json s = Some m ->
  exists pre body post,
    s = append pre (String "{" (append body (String "}" post))) /\
    m = String "{" (append body "}") /\
    body <> EmptyString /\
    no_close body = true.
Proof.
  revert m. induction s as [| c s IH]; intros m; simpl; [discriminate |].
  assert (Hskip : search_json s = Some m ->
                  exists pre body post,
                    String c s =
                      append pre (String "{" (append body (String "}" post))) /\
                    m = String "{" (append body "}") /\
                    body <> EmptyString /\ no_close body = true).
  { intros H. destruct (IH m H) as (pre & body & post & -> & Hm & Hb).
    now exists (String c pre), body, post. }
  destruct (Ascii.eqb_spec c "{") as [-> | _]; [| exact Hskip].
  destruct s as [| c' s']; [discriminate |].
  destruct (Ascii.eqb_spec c' "}") as [-> | Hc']; [exact Hskip |].
  destruct (up_to_close (String c' s')) as [m' |] eqn:Hm'; [| exact Hskip].
  intros [= <-].
  destruct (up_to_close_sound _ _ Hm') as (body & post & Hs & -> & Hb).
  exists EmptyString, body, post. rewrite Hs. repeat split; [| exact Hb].
  intros ->. simpl in Hs. injection Hs as Hc _. now apply Hc'.
Qed.

Lemma search_json_shape_witness :
  exists pre body post,
    append "Sure: " (String "{" "a: {b: 1}} done") =
      append pre (String "{" (append body (String "}" post))) /\
    String "{" "a: {b: 1}" = String "{" (append body "}") /\
    body <> EmptyString /\
    no_close body = true.
Proof.
  exact (search_json_shape
           (append "Sure: " (String "{" "a: {b: 1}} done"))
           (String "{" "a: {b: 1}") eq_refl).
Defined.

End AnalyzerFacts.

(** ** Normalization and fusion together *)

Module Composition.

Import MultimodalFusion Stated Notions FusionFacts.

Lemma winner_is_normalized (result : dict) (e : string) :
  winner result = Ok e -> exists s, e = normalize s.
Proof.
  unfold winner, normalize_emotion.
  destruct (get result "dominant_emotion" (VStr "neutral")) as [| s | |];
    try discriminate.
  intros [= <-]. now exists s.
Qed.

Lemma dominant_among_winners set_order (t v a : dict) (w : option dict)
    (r : FusedResult) :
  admissible set_order ->
  fuse_results set_order t v a w = Ok r ->
  exists result, In result [t; v; a] /\ winner result = Ok (dominant_emotion r).
Proof.
  intros Hadm. unfold fuse_results.
  destruct (fuse_primary set_order t v a w) as [r' | e] eqn:Hprimary.
  - intros [= ->].
    destruct (fuse_primary_inv _ _ _ _ _ _ Hprimary)
      as (te & ve & ae & Hte & Hve & Hae & _ & Hdom).
    apply (proj1 (set_order_In set_order Hadm _ _)) in Hdom.
    destruct Hdom as [<- | [<- | [<- | []]]];
      [exists t | exists v | exists a]; simpl; auto.
  - intros Hfallback.
    pose proof Hfallback as H. unfold fuse_fallback in H.
    apply bind_ok_inv in H as (e0 & H0 & H).
    apply bind_ok_inv in H as (e1 & H1 & H).
    apply bind_ok_inv in H as (e2 & H2 & _).
    destruct (fuse_fallback_answer t v a e0 e1 e2 H0 H1 H2)
      as (dom & Hdom & Hfirst).
    rewrite Hdom in Hfallback. injection Hfallback as <-.
    apply first_most_frequent_In in Hfirst. cbn [dominant_emotion].
    destruct Hfirst as [<- | [<- | [<- | []]]];
      [exists t | exists v | exists a]; simpl; auto.
Qed.

(** X19. The dominant emotion of every result of [fuse_results], on either
    path, is in normal form: it is one of the eight canonical emotions or a
    label the table does not know, it has no upper-case letter and no
    surrounding white space, and normalizing it again changes nothing. *)
Theorem dominant_emotion_is_normalized set_order (t v a : dict)
    (w : option dict) (r : FusedResult) :
  admissible set_order ->
  fuse_results set_order t v a w = Ok r ->
  (In (dominant_emotion r) canonical \/
   assoc (dominant_emotion r) EMOTION_MAPPING = None) /\
  PyStr.lower (dominant_emotion r) = dominant_emotion r /\
  PyStr.strip (dominant_emotion r) = dominant_emotion r /\
  normalize (dominant_emotion r) = dominant_emotion r.
Proof.
  intros Hadm Hr.
  destruct (dominant_among_winners set_order t v a w r Hadm Hr)
    as (result & _ & Hw).
  destruct (winner_is_normalized _ _ Hw) as (s & ->).
  destruct (NormalizeFacts.normalized_form s) as (Hshape & Hlow & Hstrip).
  split; [| split; [exact Hlow | split; [exact Hstrip |]]].
  - destruct Hshape as [Hc | [Hs Hnone]]; [now left | right].
    now rewrite Hs.
  - apply NormalizeFacts.normalize_fixed.
Qed.

Lemma dominant_emotion_is_normalized_witness :
  exists r,
    fuse_results (nodup string_dec)
      example_text example_video example_audio None = Ok r /\
    PyStr.lower (dominant_emotion r) = dominant_emotion r /\
    normalize (dominant_emotion r) = dominant_emotion r.
Proof.
  eexists. split; [reflexivity |].
  destruct (dominant_emotion_is_normalized (nodup string_dec)
              example_text example_video example_audio None _
              nodup_order_distinct eq_refl)
    as (_ & Hlow & _ & Hfix).
  split; assumption.
Defined.

(** *** The reported confidence as a percentage *)

Lemma round_half_even_bounds (x : Q) (n : Z) :
  0 <= x -> x <= inject_Z n -> (0 <= round_half_even x <= n)%Z.
Proof.
  intros H0 Hn. unfold round_half_even.
  pose proof (Qfloor_le x) as Hfl. pose proof (Qlt_floor x) as Hfu.
  assert (Hf0 : (0 <= Qfloor x)%Z).
  { change 0%Z with (Qfloor 0). now apply Qfloor_resp_le. }
  assert (Hfn : (Qfloor x <= n)%Z).
  { rewrite <- (Qfloor_Z n). now apply Qfloor_resp_le. }
  destruct (Z.eq_dec (Qfloor x) n) as [E | NE].
  - assert (Hx : x - inject_Z (Qfloor x) == 0) by (rewrite E in *; lra).
    rewrite (Qcompare_comp _ _ Hx (1 # 2) (1 # 2) (Qeq_refl _)).
    change (0 ?= 1 # 2) with Lt. lia.
  - destruct (x - inject_Z (Qfloor x) ?= 1 # 2);
      [destruct (Z.even (Qfloor x)) | |]; lia.
Qed.

Lemma round2_percentage (x : Q) : 0 <= x -> x <= 100 -> 0 <= round2 x <= 100.
Proof.
  intros H0 H100. unfold round2.
  destruct (round_half_even_bounds (x * 100) 10000) as [Hl Hu];
    [lra | change (inject_Z 10000) with 10000; lra |].
  assert (L : 0 <= inject_Z (round_half_even (x * 100)))
    by (change 0 with (inject_Z 0); now rewrite <- Zle_Qle).
  assert (U : inject_Z (round_half_even (x * 100)) <= 10000)
    by (change 10000 with (inject_Z 10000); now rewrite <- Zle_Qle).
  split.
  - apply Qle_shift_div_l; lra.
  - apply Qle_shift_div_r; lra.
Qed.

(** X20. With confidences between 0 and 1 and weights that are not
    negative and add up to at most 1, as the default weights do, the
    [confidence] of a primary result lies between 0 and 100. *)
Theorem confidence_is_percentage set_order (t v a : dict) (w : option dict)
    (te ve ae : string) (tc vc ac wt wv wa : Q) (r : FusedResult) :
  winner t = Ok te -> winner v = Ok ve -> winner a = Ok ae ->
  _get_confidence t te = Ok tc ->
  _get_video_confidence v ve = Ok vc ->
  _get_confidence a ae = Ok ac ->
  getitem (weights_or_default w) "text" = Ok (VNum wt) ->
  getitem (weights_or_default w) "video" = Ok (VNum wv) ->
  getitem (weights_or_default w) "audio" = Ok (VNum wa) ->
  0 <= tc <= 1 -> 0 <= vc <= 1 -> 0 <= ac <= 1 ->
  0 <= wt -> 0 <= wv -> 0 <= wa -> wt + wv + wa <= 1 ->
  fuse_primary set_order t v a w = Ok r ->
  0 <= confidence r <= 100.
Proof.
  intros Hte Hve Hae Htc Hvc Hac Hwt Hwv Hwa Btc Bvc Bac Pwt Pwv Pwa Hsum Hr.
  rewrite (FusionMore.confidence_of_primary t v a w te ve ae tc vc ac wt wv wa
             Hte Hve Hae Htc Hvc Hac Hwt Hwv Hwa set_order r Hr).
  apply round2_percentage;
    unfold weighted_score;
    assert (P1 : 0 <= tc * wt <= wt) by nra;
    assert (P2 : 0 <= vc * wv <= wv) by nra;
    assert (P3 : 0 <= ac * wa <= wa) by nra;
    set (p1 := tc * wt) in *; set (p2 := vc * wv) in *;
    set (p3 := ac * wa) in *;
    destruct (String.eqb (dominant_emotion r) te),
             (String.eqb (dominant_emotion r) ve),
             (String.eqb (dominant_emotion r) ae); lra.
Qed.

Lemma confidence_is_percentage_witness :
  exists r,
    fuse_primary (nodup string_dec)
      example_text example_video example_audio None = Ok r /\
    0 <= confidence r <= 100.
Proof.
  eexists. split; [reflexivity |].
  refine (confidence_is_percentage (nodup string_dec)
            example_text example_video example_audio None
            "happy" "sad" "sad" (90 / 100) (9 / 10) (90 / 100)
            (3 # 10) (4 # 10) (3 # 10) _
            eq_refl eq_refl eq_refl eq_refl eq_refl eq_refl
            eq_refl eq_refl eq_refl _ _ _ _ _ _ _ eq_refl);
    try (split; discriminate); discriminate.
Defined.

End Composition.
